(* ===== verification/_CoqProject ===== *)
-Q . S2P
Prelude.v
AppState.v
Style.v
Host.v
Runtime.v
View.v
Transitions.v
