(* ===== verification/Prelude.v ===== *)
(** * A verification development of Gsap-MyLearn's interactive animation page

    The repository is one React component, [App] in [src/src/App.jsx]. Its
    parts and how they interact:

    - the view state: five [useState] cells ([isPlaying], [isDarkMode],
      [animationStep], [showTrails], [scrollY], lines 5-9), changed only by
      the updates that the handlers below queue;
    - the animation driver: an effect with dependency array [[isPlaying]]
      (lines 20-28) that, while playing, registers a 2000 ms interval whose
      callback queues the functional update [prev => (prev + 1) % 4], and
      returns [() => clearInterval(interval)] as its cleanup;
    - the scroll listener: an effect with an empty dependency array (lines
      11-18) that adds [handleScroll] to [window] on mount and removes it on
      unmount; [handleScroll] copies [window.scrollY] into the state;
    - the click handlers of the four buttons (theme, line 83; play/pause,
      110; reset, 123; trails, 136), each a closure over the state of the
      render that created it;
    - the style mapper: [getAnimationClass] (lines 52-60), the shape's
      border radius (lines 44, 156), and the scroll-driven parallax offsets
      and fade-in opacities (lines 68, 74, 78, 103, 144, 196-197, 216-217);
    - the trail renderer [renderTrails] (lines 30-50): [null] when hidden,
      otherwise five delayed, fading copies of the shape;
    - the render tree (lines 62-238), which reads all of the above; the
      shape and the trails carry CSS transitions (2000 ms, the trails
      delayed by [index * 100] ms) that the browser retargets at each
      tick.

    Data flows one way: the browser's timer and scroll events and the
    user's clicks queue state updates; React applies them, re-renders, and
    reconciles the two effects, whose bodies and cleanups call the
    browser's [setInterval], [clearInterval], [addEventListener] and
    [removeEventListener].

    ** Files, in dependency order

    - [Prelude] (this file): the interface [JsNumber] of the number
      operations the code uses ([+ - * /], unary minus, [<], [Math.max],
      [Math.min], decimal literals as [lit m d]), with two instances: exact
      rationals [Q], in which the theorems are stated, and IEEE-754
      binary64 ([PrimFloat]), which computes what a browser computes; the
      notations of [js_scope]; the tactics [js_cases], [qnorm] and
      [js_lra] that decide clamp and offset goals over [Q]; the shared
      lemmas on [Math.max]/[Math.min] and on [Z.rem] (hint database [js]).
    - [AppState], [Module App]: the state record [AppState] and
      [initialState]; React's set-state actions ([SetStateAction],
      [resolve]) and the five setters ([Update], [apply_update]); the
      code's closures [nextStep], [intervalCallback], [handleScroll],
      [onToggleTheme], [onTogglePlay], [onReset], [onToggleTrails]; the
      step invariant [step_ok].
    - [Style], [Section StyleMapper] (generic in the number type): the
      class tokens [classList], [getAnimationClass], [borderRadius], the
      style objects of each block, [featureOpacity], [infoOpacity],
      [controlPanelOpacity], and [renderTrails] with [trailAt].
    - [Host]: the browser: a millisecond clock, the active intervals (a
      stdpp [gmap] from timer id to callback, period and due time), the
      scroll listeners with their function identities, [window.scrollY];
      [setInterval], [clearInterval], [addEventListener],
      [removeEventListener], [fire] (a due interval runs, possibly late,
      and is rescheduled), [elapse], [scrollTo], [next_due] (the timer
      the event loop runs next); [host_wf] (the ids issued next are
      fresh), under which a cleanup undoes its registration.
      This is platform behaviour from the HTML standard, not code of the
      repository.
    - [Runtime]: React's passive-effect reconciliation ([Section
      Reconcile]: effects run on mount, re-run when their dependencies
      change, all cleanups before all bodies, cleanups on unmount); the
      App's effects [runEffect], cleanups [runCleanup], dependency arrays
      [effectDeps]; the page as the transition function [step] on [Sys]
      (app state, effect slots, browser, mounted flag) over [Event]s
      (clicks, scroll events, timer firings, elapsing time, unmount, and
      [Remount]: React re-running the effects of a component that stays
      mounted, as StrictMode and Fast Refresh do, modelled by [remount]), its
      [reachable] states, the invariant [inv], runs of events [run], the
      event loop [advance] that runs due timers in order up to a target
      time, and the spec's abstract animation driver [Module DriverSpec]
      (with its initial state [init]) and the abstraction [abs].
    - [View]: the render tree [render] as [Node]s (tag, class tokens,
      style object, click handler, children; icons by name; interpolated
      numbers as numbers), one definition per section, and the readers
      [count_class], [handlers], [texts], and [skeleton] (the tree with
      the theme's classes, icon and label erased).
    - [Transitions]: the CSS transitions of the shape and the trails: the
      transform ([Pose]) the Tailwind pose classes set, the duration read
      from the duration utilities, each element's delay read from its
      style ([elemPose], [elemDuration], [elemDelay] over [Elem]), the CSS
      Transitions rules for starting and retargeting a transition from the
      value reached ([progress], [value], [retarget]), and an element along
      the schedule of ticks every [tickPeriod] ms ([beat]). The timing
      function is a section variable with the laws of [ease-in-out].

    ** What the theorems show

    - the running page (Runtime, View): every reachable state satisfies
      the invariant, so while mounted the step is in 0..3, one scroll
      listener is registered, and one interval exists exactly while
      playing (C1); every run of the page from its mount is, abstracted, a
      run of the spec's driver from its initial state (C2); while paused
      no event but a click changes the step (C3); while playing, 2000 ms
      later a firing advances the step (C4); k periods of 2000 ms give
      exactly k ticks (C5); the event loop catching up with any target
      time terminates within [(target - now) / 2000 + 2] rounds (C6); two
      ticks are at least 2000 ms apart (C7); unmount releases the interval
      and the listener (C8), and each cleanup exactly undoes its effect's
      registration (C9); reset sets step 0 and leaves the timers alone
      (C10); pause/resume leaves one fresh interval due a full period
      later (C11), and so does re-running the effects, which leaks nothing
      (C12); the theme and trails clicks commute with timer firings,
      scroll events and elapsing time (C13); the details panel shows a
      step in 1..4 and says Playing exactly when an interval is registered
      (C14); the state's [scrollY] keeps mirroring [window.scrollY] once
      it does (C15), but not from mount (C16);
    - the transitions (Transitions): the shape is on the beat, leaving for
      each pose exactly from the previous one (C17); when a tick comes,
      only the shape and trail 0 have reached the pose, and trails 1 to 4
      are retargeted from midway (C18); every element settles exactly
      2000 ms plus its delay after a change, within 2400 ms (C19);
    - the driver's arithmetic (AppState): the ticks cycle the step with
      period exactly four (C20); the updater is [(n + 1) mod 4] (C21); a
      toggle click changes the state and a second one restores it (C33);
    - the style mapper and trails (Style, View): fade-ins lie in [0, 1]
      (C22); the control panel's opacity does for non-negative offsets
      (C23) and exceeds 1 for negative ones (C24); thresholds and
      monotonicity of the fade-ins (C25, C26); the trails' keys, poses,
      delays and opacities (C27); the [default] pose branch (C28); the two
      theme palettes (C29), and a theme click changes nothing else on the
      page (C30); five or no trail elements and one shape in the tree
      (C31); the four controls and their handlers (C32).

    ** Choices, bounds and fuel

    JS numbers are [Q] in the theorems, where clamps and thresholds are
    exact; the binary64 instance runs the same definitions as the browser
    computes them, on concrete inputs, and no theorem is stated over it. [animationStep] is a [Z], since the code only stores
    integers in it, with [%] as [Z.rem] (JavaScript's remainder takes the
    sign of the dividend). Time is a [Z] of milliseconds, and a browser may
    run a due interval late but never early. Timer and function ids are
    the host's counters. Every function but [advance] is structural, and
    the page's behaviour is the relation [reachable] over finite sequences
    of [step]s. [advance] takes fuel, the number of timer firings it may
    run: while playing the page has one interval, rescheduled 2000 ms
    after each firing, so at most [(target - now) / 2000 + 1] firings are
    due by [target] (the first may be overdue and run at once), plus one
    round to let the remaining time pass; C6 proves this fuel enough. React 18's synchronous flush of discrete events is assumed:
    each click is rendered and committed before the next event.

    ** Not modelled

    DOM layout; of the CSS transitions, the exact curve of [ease-in-out]
    (a parameter with its laws), the transitions of [border-radius] and
    [opacity], and CSS's reversing case (a change back to the start value
    of a running transition, with a shortened duration: [retarget]
    returns [None] there; ticks never cause it, a reset can); the scale
    of [scale-200] is taken as 2, as Tailwind 4 and a Tailwind 3 theme
    that defines it give (the repository's Tailwind configuration is not
    part of it); the lucide icons beyond their names, the whitespace of class strings (a class
    attribute is its token list), the formatting of numbers into style
    strings, nested-timer clamping (App's interval is not nested), and
    React's concurrent rendering: renders that are interrupted, replayed or
    discarded before commit. App's renders are pure, so a discarded render
    has no effect on the browser. Development-mode double invocation of
    the render function itself is therefore invisible too; the double
    invocation of effects is the [Remount] event.

    ** Plan for further work

    A typeclass interface for the host's timer and listener operations
    with the browser as its instance; the batching of two clicks rendered
    by the same closure; error bounds between the binary64 and exact
    fade-ins. *)

From Stdlib Require Import ZArith QArith Lqa Lia Bool.
From Stdlib Require Import PrimFloat Uint63.

Declare Scope js_scope.
Delimit Scope js_scope with js.

(** ** JavaScript numbers *)

(** The operations the component performs on numbers. *)
Class JsNumber (A : Type) := {
  js_int : Z -> A;
  js_add : A -> A -> A;
  js_sub : A -> A -> A;
  js_mul : A -> A -> A;
  js_div : A -> A -> A;
  js_neg : A -> A;
  js_lt : A -> A -> bool
}.

Infix "+" := js_add : js_scope.
Infix "-" := js_sub : js_scope.
Infix "*" := js_mul : js_scope.
Infix "/" := js_div : js_scope.
Notation "- x" := (js_neg x) : js_scope.
Infix "<?" := js_lt : js_scope.

(** The decimal literal [m / d] of the source, e.g. [0.002] as [lit 2 1000]:
    in binary64, the quotient of two exact integers is correctly rounded,
    so it is the double the literal denotes. *)
Definition lit {A} `{JsNumber A} (m d : Z) : A := js_div (js_int m) (js_int d).

(** [Math.max] and [Math.min] on two arguments that are not NaN. *)
Definition Math_max {A} `{JsNumber A} (x y : A) : A := if js_lt x y then y else x.
Definition Math_min {A} `{JsNumber A} (x y : A) : A := if js_lt y x then y else x.

(** Exact arithmetic. *)
#[export] Instance JsNumber_Q : JsNumber Q := {
  js_int := inject_Z;
  js_add := Qplus;
  js_sub := Qminus;
  js_mul := Qmult;
  js_div := Qdiv;
  js_neg := Qopp;
  js_lt a b := negb (Qle_bool b a)
}.

(** IEEE-754 binary64, as a browser computes; integers are exact below
    2^53, which covers every integer constant of the code. *)
Definition float_of_Z (z : Z) : float :=
  if (z <? 0)%Z then PrimFloat.opp (of_uint63 (Uint63.of_Z (- z)))
  else of_uint63 (Uint63.of_Z z).

#[export] Instance JsNumber_float : JsNumber float := {
  js_int := float_of_Z;
  js_add := PrimFloat.add;
  js_sub := PrimFloat.sub;
  js_mul := PrimFloat.mul;
  js_div := PrimFloat.div;
  js_neg := PrimFloat.opp;
  js_lt := PrimFloat.ltb
}.

(** ** Reasoning on the exact instance *)

Create HintDb js.

Lemma js_ltQ (a b : Q) : reflect (a < b) (js_lt a b).
Proof.
  simpl. destruct (Qle_bool b a) eqn:E; constructor.
  - apply Qle_bool_iff in E. now apply Qle_not_lt.
  - apply Qnot_le_lt. intros H. apply Qle_bool_iff in H. congruence.
Qed.

(** Case analysis on every comparison of the goal. *)
Ltac js_cases :=
  repeat match goal with
  | |- context [js_lt ?a ?b] => destruct (js_ltQ a b)
  | H : context [js_lt ?a ?b] |- _ => destruct (js_ltQ a b)
  end.

(** Turn the instance's operations into [Q]'s and evaluate the inverses of
    constants, which [lra] does not see through. *)
Ltac qnorm :=
  cbn [js_int js_add js_sub js_mul js_div js_neg JsNumber_Q] in *;
  cbv [inject_Z Qdiv] in *;
  repeat match goal with
  | |- context [Qinv (Qmake ?a ?b)] =>
      let v := eval vm_compute in (Qinv (Qmake a b)) in
      change (Qinv (Qmake a b)) with v in *
  | H : context [Qinv (Qmake ?a ?b)] |- _ =>
      let v := eval vm_compute in (Qinv (Qmake a b)) in
      change (Qinv (Qmake a b)) with v in *
  end.

(** Decide a linear goal about clamps and offsets over [Q]. *)
Ltac js_lra := unfold Math_max, Math_min, lit in *; js_cases; qnorm; lra.


Lemma Math_max_Q_mono (x x' y y' : Q) :
  x <= x' -> y <= y' -> Math_max x y <= Math_max x' y'.
Proof. intros. js_lra. Qed.

Lemma Math_min_Q_mono (x x' y y' : Q) :
  x <= x' -> y <= y' -> Math_min x y <= Math_min x' y'.
Proof. intros. js_lra. Qed.

(** The clamp [Math.max(0, Math.min(1, x))] of the fade-ins. *)
Lemma clamp01_Q (x : Q) : 0 <= Math_max (js_int 0) (Math_min (js_int 1) x) <= 1.
Proof. js_lra. Qed.

#[export] Instance Math_max_Q_proper : Proper (Qeq ==> Qeq ==> Qeq) (@Math_max Q _).
Proof. intros x x' Hx y y' Hy. js_lra. Qed.

#[export] Instance Math_min_Q_proper : Proper (Qeq ==> Qeq ==> Qeq) (@Math_min Q _).
Proof. intros x x' Hx y y' Hy. js_lra. Qed.

#[export] Hint Resolve Math_max_Q_mono Math_min_Q_mono clamp01_Q : js.

(** ** The remainder of JavaScript's [%] *)

Lemma rem_mod_nonneg (a b : Z) : (0 <= a)%Z -> (0 < b)%Z -> Z.rem a b = (a mod b)%Z.
Proof. intros. apply Z.rem_mod_nonneg; lia. Qed.

Lemma rem_range (a b : Z) : (0 <= a)%Z -> (0 < b)%Z -> (0 <= Z.rem a b < b)%Z.
Proof. intros. rewrite rem_mod_nonneg by lia. apply Z.mod_pos_bound. lia. Qed.

#[export] Hint Resolve rem_range : js.
