(* ===== verification/AppState.v ===== *)
(** The view state of [App] ([src/src/App.jsx], lines 5-9), React's
    set-state actions, and the updates that the component's handlers and
    callbacks queue (lines 12-14, 23-25, 83, 110, 123, 136). *)

From Stdlib Require Import ZArith QArith List Lia.
From S2P Require Import Prelude.
Import ListNotations.

Module App.

(** The five [useState] cells. *)
Record AppState := mkAppState {
  isPlaying : bool;
  isDarkMode : bool;
  animationStep : Z;
  showTrails : bool;
  scrollY : Q
}.

(** The initial values passed to [useState]. *)
Definition initialState : AppState :=
  {| isPlaying := true; isDarkMode := true; animationStep := 0;
     showTrails := true; scrollY := 0 |}.

(** The argument of a state setter: a value, or an updater that React
    applies to the latest queued state ([basicStateReducer]). *)
Inductive SetStateAction (A : Type) :=
| SetValue (v : A)
| Updater (f : A -> A).
Arguments SetValue {A} v.
Arguments Updater {A} f.

Definition resolve {A} (a : SetStateAction A) (prev : A) : A :=
  match a with
  | SetValue v => v
  | Updater f => f prev
  end.

(** A call of one of the five setters. *)
Inductive Update :=
| setIsPlaying (a : SetStateAction bool)
| setIsDarkMode (a : SetStateAction bool)
| setAnimationStep (a : SetStateAction Z)
| setShowTrails (a : SetStateAction bool)
| setScrollY (a : SetStateAction Q).

Definition apply_update (s : AppState) (u : Update) : AppState :=
  match u with
  | setIsPlaying a =>
      {| isPlaying := resolve a (isPlaying s); isDarkMode := isDarkMode s;
         animationStep := animationStep s; showTrails := showTrails s;
         scrollY := scrollY s |}
  | setIsDarkMode a =>
      {| isPlaying := isPlaying s; isDarkMode := resolve a (isDarkMode s);
         animationStep := animationStep s; showTrails := showTrails s;
         scrollY := scrollY s |}
  | setAnimationStep a =>
      {| isPlaying := isPlaying s; isDarkMode := isDarkMode s;
         animationStep := resolve a (animationStep s);
         showTrails := showTrails s; scrollY := scrollY s |}
  | setShowTrails a =>
      {| isPlaying := isPlaying s; isDarkMode := isDarkMode s;
         animationStep := animationStep s;
         showTrails := resolve a (showTrails s); scrollY := scrollY s |}
  | setScrollY a =>
      {| isPlaying := isPlaying s; isDarkMode := isDarkMode s;
         animationStep := animationStep s; showTrails := showTrails s;
         scrollY := resolve a (scrollY s) |}
  end.

(** React processes the queue of one batch in order. *)
Definition apply_updates (s : AppState) (us : list Update) : AppState :=
  fold_left apply_update us s.

(** ** The component's handlers and callbacks *)

(** The interval's updater [(prev) => (prev + 1) % 4]. *)
Definition nextStep (prev : Z) : Z := Z.rem (prev + 1) 4.

(** The interval callback: a functional update, which reads no state of
    the render that created it. *)
Definition intervalCallback : Update := setAnimationStep (Updater nextStep).

(** [handleScroll]: [setScrollY(window.scrollY)], with the value the
    window holds when the event is dispatched. *)
Definition handleScroll (window_scrollY : Q) : Update :=
  setScrollY (SetValue window_scrollY).

(** The four buttons, in the order of the page. *)
Inductive Button := ThemeButton | PlayButton | ResetButton | TrailsButton.

(** The [onClick] closures, created by the render whose state is
    [rendered]: the theme toggle (line 83), play/pause (line 110), reset
    (line 123) and the trails toggle (line 136). *)
Definition onToggleTheme (rendered : AppState) : Update :=
  setIsDarkMode (SetValue (negb (isDarkMode rendered))).
Definition onTogglePlay (rendered : AppState) : Update :=
  setIsPlaying (SetValue (negb (isPlaying rendered))).
Definition onReset (rendered : AppState) : Update :=
  setAnimationStep (SetValue 0%Z).
Definition onToggleTrails (rendered : AppState) : Update :=
  setShowTrails (SetValue (negb (showTrails rendered))).

Definition onClick (b : Button) : AppState -> Update :=
  match b with
  | ThemeButton => onToggleTheme
  | PlayButton => onTogglePlay
  | ResetButton => onReset
  | TrailsButton => onToggleTrails
  end.

(** A click handled by the closure of the current render, then applied. *)
Definition click (b : Button) (s : AppState) : AppState :=
  apply_update s (onClick b s).

(** ** Invariant: the step is one of the four phases *)

Definition step_ok (s : AppState) : bool :=
  (0 <=? animationStep s)%Z && (animationStep s <? 4)%Z.

Lemma step_ok_spec (s : AppState) :
  step_ok s = true <-> (0 <= animationStep s < 4)%Z.
Proof. unfold step_ok. rewrite andb_true_iff, Z.leb_le, Z.ltb_lt. tauto. Qed.

Lemma nextStep_range (n : Z) : (0 <= n)%Z -> (0 <= nextStep n < 4)%Z.
Proof. intros. unfold nextStep. apply rem_range; lia. Qed.

(** The updates this program queues. *)
Inductive program_update : Update -> Prop :=
| pu_click b s : program_update (onClick b s)
| pu_interval : program_update intervalCallback
| pu_scroll y : program_update (handleScroll y).

Lemma program_update_step_ok (s : AppState) (u : Update) :
  program_update u -> step_ok s = true -> step_ok (apply_update s u) = true.
Proof.
  rewrite !step_ok_spec. intros [[] r | | y] H; cbn; try lia.
  apply nextStep_range. lia.
Qed.

Lemma program_updates_step_ok (s : AppState) (us : list Update) :
  Forall program_update us -> step_ok s = true ->
  step_ok (apply_updates s us) = true.
Proof.
  unfold apply_updates. intros H. revert s.
  induction H; intros; cbn; [assumption | ].
  apply IHForall. now apply program_update_step_ok.
Qed.

(** ** Theorems *)

(** C21: The updater agrees with the spec's [(n + 1) mod 4] on every
    non-negative step. *)
Theorem nextStep_mod (n : Z) : (0 <= n)%Z -> nextStep n = ((n + 1) mod 4)%Z.
Proof. intros. unfold nextStep. apply rem_mod_nonneg; lia. Qed.

Lemma nextStep_mod_witness : (0 <= 3)%Z /\ nextStep 3 = ((3 + 1) mod 4)%Z.
Proof. split; [lia | apply nextStep_mod; lia]. Defined.


(** C20: the interval callback cycles through the four poses with period
    exactly four: from every state with a valid step, four firings bring it
    back to itself, and one, two or three firings never do. *)
Theorem four_ticks_identity (s : AppState) :
  step_ok s = true ->
  apply_updates s (repeat intervalCallback 4) = s /\
  forall k, (0 < k < 4)%nat -> apply_updates s (repeat intervalCallback k) <> s.
Proof.
  rewrite step_ok_spec. intros R. destruct s as [p d n tr y]. cbn in R.
  assert (n = 0 \/ n = 1 \/ n = 2 \/ n = 3)%Z as C by lia.
  split; [destruct C as [-> | [-> | [-> | ->]]]; reflexivity |].
  intros k Hk. assert (k = 1 \/ k = 2 \/ k = 3)%nat as K by lia.
  destruct C as [-> | [-> | [-> | ->]]]; destruct K as [-> | [-> | ->]]; discriminate.
Qed.

Lemma four_ticks_identity_witness :
  step_ok initialState = true /\
  (apply_updates initialState (repeat intervalCallback 4) = initialState /\
   forall k, (0 < k < 4)%nat -> apply_updates initialState (repeat intervalCallback k) <> initialState).
Proof. split; [reflexivity | apply four_ticks_identity; reflexivity]. Defined.

(** C33: a click on a toggle button, handled by the closure of the
    current render, changes the state, and a second click, handled by the
    closure of the render after the first, restores it. *)
Theorem toggle_twice (b : Button) (s : AppState) :
  b <> ResetButton -> click b s <> s /\ click b (click b s) = s.
Proof.
  intros Hb. destruct s as [p d n tr y].
  destruct b; cbn; [| | easy |]; rewrite ?negb_involutive; split; try reflexivity;
    intros H; injection H; intros; match goal with
    | E : negb ?x = ?x |- _ => destruct x; discriminate
    end.
Qed.

Lemma toggle_twice_witness :
  ThemeButton <> ResetButton /\
  (click ThemeButton initialState <> initialState /\
   click ThemeButton (click ThemeButton initialState) = initialState).
Proof. split; [discriminate | apply toggle_twice; discriminate]. Defined.

End App.
