(* ===== verification/Style.v ===== *)
(** The style mapper of [App] ([src/src/App.jsx]): the pose classes of
    [getAnimationClass] (lines 52-60), the shape's border radius (lines 44
    and 156), the scroll-driven parallax offsets and fade-in opacities of
    the page's blocks (lines 68, 74, 78, 103, 144, 196-197, 216-217), and
    [renderTrails] (lines 30-50). The definitions are generic in the
    [JsNumber] instance (exact [Q] or binary64); the theorems are stated
    over [Q]. *)

From Stdlib Require Import ZArith QArith Lqa List String Ascii Lia.
From S2P Require Import Prelude.
Import ListNotations.
Open Scope string_scope.

(** ** Class attributes

    The DOM splits a class attribute at ASCII whitespace; a template
    literal's class string is modelled by those tokens. *)

Definition is_ws (c : ascii) : bool :=
  match c with
  | " " | "009" | "010" | "012" | "013" => true
  | _ => false
  end%char.

Fixpoint tokens_aux (s : string) (cur : string) : list string :=
  match s with
  | EmptyString => if String.eqb cur "" then [] else [cur]
  | String c rest =>
      if is_ws c then (if String.eqb cur "" then [] else [cur]) ++ tokens_aux rest ""
      else tokens_aux rest (cur ++ String c EmptyString)
  end.

(** The class list of a class attribute. *)
Definition classList (s : string) : list string := tokens_aux s "".

(** [getAnimationClass]: the pose of each step; [default] gives [''].*)
Definition getAnimationClass (animationStep : Z) : string :=
  match animationStep with
  | 0%Z => "translate-x-0 translate-y-0 scale-100"
  | 1%Z => "translate-x-[250px] rotate-[360deg]"
  | 2%Z => "translate-x-[250px] translate-y-[200px] scale-150 rotate-[720deg]"
  | 3%Z => "translate-x-[400px] translate-y-[200px] scale-200 rotate-[1080deg]"
  | _ => ""
  end.

(** [borderRadius: animationStep > 0 ? '50%' : '0.5rem']. *)
Definition borderRadius (animationStep : Z) : string :=
  if (0 <? animationStep)%Z then "50%" else "0.5rem".

Section StyleMapper.
Context {A : Type} `{JsNumber A}.
Local Open Scope js_scope.

Inductive Transform :=
| translateX (px : A)
| translateY (px : A).

(** A React style object, with the properties the component sets. *)
Record Style := mkStyle {
  transform : option Transform;
  opacity : option A;
  styleBorderRadius : option string;
  transitionDelay : option A  (* milliseconds *)
}.

Definition transformStyle (t : Transform) : Style :=
  {| transform := Some t; opacity := None; styleBorderRadius := None;
     transitionDelay := None |}.

Definition fadeStyle (t : Transform) (o : A) : Style :=
  {| transform := Some t; opacity := Some o; styleBorderRadius := None;
     transitionDelay := None |}.

(** Hero background, title and subtitle (lines 68, 74, 78). *)
Definition heroBackgroundStyle (scrollY : A) : Style :=
  transformStyle (translateY (scrollY * lit 5 10)).
Definition heroTitleStyle (scrollY : A) : Style :=
  transformStyle (translateY ((- scrollY) * lit 3 10)).
Definition heroTextStyle (scrollY : A) : Style :=
  transformStyle (translateY ((- scrollY) * lit 2 10)).

(** Control panel (line 103). *)
Definition controlPanelOpacity (scrollY : A) : A :=
  Math_max (js_int 0) (js_int 1 - scrollY * lit 2 1000).
Definition controlPanelStyle (scrollY : A) : Style :=
  fadeStyle (translateX ((- scrollY) * lit 1 10)) (controlPanelOpacity scrollY).

(** Animation container (line 144). *)
Definition stageStyle (scrollY : A) : Style :=
  transformStyle (translateY ((scrollY - js_int 500) * lit 2 10)).

(** Feature cards (lines 196-197). *)
Definition featureOpacity (scrollY : A) : A :=
  Math_max (js_int 0) (Math_min (js_int 1) ((scrollY - js_int 1000) / js_int 400)).
Definition featureStyle (scrollY : A) : Style :=
  fadeStyle (translateY (Math_max (js_int 0) ((scrollY - js_int 1000) * lit 2 10)))
    (featureOpacity scrollY).

(** Animation details panel (lines 216-217). *)
Definition infoOpacity (scrollY : A) : A :=
  Math_max (js_int 0) (Math_min (js_int 1) ((scrollY - js_int 1500) / js_int 400)).
Definition infoStyle (scrollY : A) : Style :=
  fadeStyle (translateY (Math_max (js_int 0) ((scrollY - js_int 1500) * lit 1 10)))
    (infoOpacity scrollY).

(** ** Trails *)

(** A rendered trail [div]. *)
Record Trail := mkTrail {
  trailKey : Z;
  trailClass : list string;
  trailStyle : Style
}.

(** The class list of a trail (lines 36-42). *)
Definition trailClassList (animationStep : Z) : list string :=
  ["absolute"; "w-20"; "h-20"; "bg-yellow-500/30"; "rounded-lg";
   "transition-all"; "duration-[2000ms]"; "ease-in-out"]
  ++ classList (getAnimationClass animationStep).

(** The trail of index [index] (lines 34-48). *)
Definition trailAt (animationStep : Z) (index : Z) : Trail :=
  {| trailKey := index;
     trailClass := trailClassList animationStep;
     trailStyle :=
       {| transform := None;
          styleBorderRadius := Some (borderRadius animationStep);
          transitionDelay := Some (js_int index * js_int 100);
          opacity := Some (js_int 1 - js_int index * lit 15 100) |} |}.

(** [renderTrails]: [null] when hidden, else [Array.from({length: 5})]
    mapped over its indices. *)
Definition renderTrails (showTrails : bool) (animationStep : Z) : option (list Trail) :=
  if negb showTrails then None
  else Some (map (trailAt animationStep) (map Z.of_nat (seq 0 5))).

End StyleMapper.

Arguments Transform A : clear implicits.
Arguments Style A : clear implicits.
Arguments Trail A : clear implicits.

(** ** Theorems over the exact instance *)

Section Exact.
Local Open Scope Q_scope.

#[export] Instance featureOpacity_proper : Proper (Qeq ==> Qeq) (@featureOpacity Q _).
Proof. intros x y E. unfold featureOpacity. js_lra. Qed.

#[export] Instance infoOpacity_proper : Proper (Qeq ==> Qeq) (@infoOpacity Q _).
Proof. intros x y E. unfold infoOpacity. js_lra. Qed.

#[export] Instance controlPanelOpacity_proper :
  Proper (Qeq ==> Qeq) (@controlPanelOpacity Q _).
Proof. intros x y E. unfold controlPanelOpacity. js_lra. Qed.

(** C22: the opacities of the feature cards and of the details panel lie in
    [0, 1] for every scroll offset, negative ones included. *)
Theorem fade_in_opacity_bounds (y : Q) :
  0 <= featureOpacity y <= 1 /\ 0 <= infoOpacity y <= 1.
Proof. unfold featureOpacity, infoOpacity. split; auto with js. Qed.

(** C23: the control panel's opacity [Math.max(0, 1 - scrollY * 0.002)],
    which has no upper clamp, lies in [0, 1] for every non-negative scroll
    offset. *)
Theorem controlPanelOpacity_bounds (y : Q) :
  0 <= y -> 0 <= controlPanelOpacity y <= 1.
Proof. intros. unfold controlPanelOpacity. js_lra. Qed.

Lemma controlPanelOpacity_bounds_witness :
  0 <= 250 /\ 0 <= controlPanelOpacity 250 <= 1.
Proof. split; [discriminate | apply controlPanelOpacity_bounds; discriminate]. Defined.

(** C24: with a negative scroll offset, as an elastic overscroll gives
    [window.scrollY], the control panel's opacity exceeds 1: the code has no
    upper clamp. *)
Theorem controlPanelOpacity_overscroll (y : Q) :
  y < 0 -> 1 < controlPanelOpacity y.
Proof. intros. unfold controlPanelOpacity. js_lra. Qed.

Lemma controlPanelOpacity_overscroll_witness :
  -100 < 0 /\ 1 < controlPanelOpacity (-100) /\ controlPanelOpacity (-100) == 6 # 5.
Proof.
  split; [reflexivity | split; [apply controlPanelOpacity_overscroll; reflexivity | reflexivity]].
Defined.

(** C26: scrolling further down never makes a block fade out. *)
Theorem fade_in_monotone (y y' : Q) :
  y <= y' ->
  featureOpacity y <= featureOpacity y' /\ infoOpacity y <= infoOpacity y'.
Proof.
  intros. unfold featureOpacity, infoOpacity.
  split; apply Math_max_Q_mono, Math_min_Q_mono; qnorm; lra.
Qed.

Lemma fade_in_monotone_witness :
  1100 <= 1200 /\ featureOpacity 1100 <= featureOpacity 1200 /\ infoOpacity 1100 <= infoOpacity 1200.
Proof. split; [discriminate | apply fade_in_monotone; discriminate]. Defined.

(** C25: the feature cards are invisible exactly up to 1000 px and fully
    visible exactly from 1400 px; the details panel likewise at 1500 and
    1900 px. *)
Theorem fade_in_thresholds (y : Q) :
  (featureOpacity y == 0 <-> y <= 1000) /\ (featureOpacity y == 1 <-> 1400 <= y) /\
  (infoOpacity y == 0 <-> y <= 1500) /\ (infoOpacity y == 1 <-> 1900 <= y).
Proof.
  unfold featureOpacity, infoOpacity, Math_max, Math_min. js_cases; qnorm;
    repeat split; intros; lra.
Qed.


(** C28: [getAnimationClass] falls to its [default] branch, and the shape
    gets no pose, exactly when the step is not one of 0, 1, 2, 3. *)
Theorem getAnimationClass_default (n : Z) :
  getAnimationClass n = "" <-> ~ (0 <= n <= 3)%Z.
Proof.
  split.
  - intros E R. assert (n = 0 \/ n = 1 \/ n = 2 \/ n = 3)%Z as C by lia.
    destruct C as [-> | [-> | [-> | ->]]]; discriminate.
  - intros R. destruct n as [|p|p]; [lia | | reflexivity].
    destruct p as [[]|[]|]; try reflexivity; lia.
Qed.

Example classList_pose_2 :
  classList (getAnimationClass 2) =
  ["translate-x-[250px]"; "translate-y-[200px]"; "scale-150"; "rotate-[720deg]"].
Proof. reflexivity. Qed.

(** An option of an exact number, compared with [Qeq]. *)
Definition opt_Qeq (o : option Q) (q : Q) : Prop :=
  match o with Some x => x == q | None => False end.

(** C27: hidden trails render [null]; shown trails are five [div]s with
    keys 0..4, each a copy of the shape's pose (its classes and border
    radius), delayed by 0, 100, ..., 400 ms and with opacities
    1, 0.85, 0.70, 0.55, 0.40. *)
Theorem renderTrails_spec (show : bool) (step : Z) :
  match renderTrails (A := Q) show step with
  | None => show = false
  | Some ts =>
      show = true /\ map trailKey ts = [0; 1; 2; 3; 4]%Z /\
      Forall (fun t => trailClass t = trailClassList step /\
                       styleBorderRadius (trailStyle t) = Some (borderRadius step)) ts /\
      Forall2 opt_Qeq (map (fun t => transitionDelay (trailStyle t)) ts)
        [0; 100; 200; 300; 400] /\
      Forall2 opt_Qeq (map (fun t => opacity (trailStyle t)) ts)
        [1; 0.85; 0.70; 0.55; 0.40]
  end.
Proof.
  destruct show; cbn; [| reflexivity].
  split; [reflexivity |]. split; [reflexivity |].
  split; [repeat constructor |].
  split; repeat constructor.
Qed.

End Exact.

