(* ===== verification/Host.v ===== *)
(** The browser that [App]'s effects call: a millisecond clock, the
    active intervals of [setInterval] (a [gmap] from timer id), the
    [window] scroll listeners with the identities of their function
    objects, and [window.scrollY]. These are not code of the repository:
    they follow the HTML standard's timer and event-listener algorithms, as
    far as the component uses them. The callback and listener closures are
    parameters [C] and [L], supplied by the component. *)

From stdpp Require Import base gmap list.
From Stdlib Require Import ZArith QArith.

Section Host.
Context {C L : Type}.

(** An interval of the map of active timers. *)
Record Timer := mkTimer {
  callback : C;
  period : Z;
  due : Z
}.

Record Host := mkHost {
  now : Z;
  intervals : gmap Z Timer;
  nextTimerId : Z;
  listeners : list (Z * L);
  nextObjectId : Z;
  windowScrollY : Q
}.

Definition with_intervals (m : gmap Z Timer) (h : Host) : Host :=
  mkHost (now h) m (nextTimerId h) (listeners h) (nextObjectId h) (windowScrollY h).

Definition with_listeners (ls : list (Z * L)) (h : Host) : Host :=
  mkHost (now h) (intervals h) (nextTimerId h) ls (nextObjectId h) (windowScrollY h).

(** [setInterval(cb, delay)]: a negative delay counts as 0; the id is
    fresh; the first firing is due [delay] ms from now. *)
Definition setInterval (cb : C) (delay : Z) (h : Host) : Host * Z :=
  let id := nextTimerId h in
  let d := Z.max 0 delay in
  (mkHost (now h) (<[id := mkTimer cb d (now h + d)]> (intervals h)) (id + 1)
     (listeners h) (nextObjectId h) (windowScrollY h), id).

(** [clearInterval(id)]: removes the timer; an unknown id is ignored. *)
Definition clearInterval (id : Z) (h : Host) : Host :=
  with_intervals (delete id (intervals h)) h.

(** A new function object (a closure created by the script), with its
    identity. *)
Definition newFunction (h : Host) : Host * Z :=
  (mkHost (now h) (intervals h) (nextTimerId h) (listeners h)
     (nextObjectId h + 1) (windowScrollY h), nextObjectId h).

Definition has_listener (fid : Z) (ls : list (Z * L)) : bool :=
  existsb (fun p => bool_decide (p.1 = fid)) ls.

(** [window.addEventListener('scroll', f)]: a listener already registered
    is not added twice. *)
Definition addEventListener (fid : Z) (l : L) (h : Host) : Host :=
  if has_listener fid (listeners h) then h
  else with_listeners (listeners h ++ [(fid, l)]) h.

(** [window.removeEventListener('scroll', f)]. *)
Definition removeEventListener (fid : Z) (h : Host) : Host :=
  with_listeners (filter (fun p => p.1 <> fid) (listeners h)) h.

(** Time passes. *)
Definition elapse (dt : Z) (h : Host) : Host :=
  mkHost (now h + dt) (intervals h) (nextTimerId h) (listeners h)
    (nextObjectId h) (windowScrollY h).

(** The page is scrolled to [y]. *)
Definition scrollTo (y : Q) (h : Host) : Host :=
  mkHost (now h) (intervals h) (nextTimerId h) (listeners h) (nextObjectId h) y.

(** The event loop runs interval [id] once it is due (a browser may run
    it late, never early): its callback is returned, and the next firing
    is due one period after this one ran. *)
Definition fire (id : Z) (h : Host) : option (C * Host) :=
  match intervals h !! id with
  | Some t =>
      if bool_decide (due t <= now h)%Z then
        Some (callback t,
              with_intervals (<[id := mkTimer (callback t) (period t) (now h + period t)]>
                                (intervals h)) h)
      else None
  | None => None
  end.


(** The timer the event loop runs next on its way to time [target]: the
    interval of the earliest due time among those due by [target] (the
    first in id order on a tie), or none. *)
Definition next_due (h : Host) (target : Z) : option (Z * Timer) :=
  foldr (fun p acc =>
           if bool_decide (due p.2 <= target)%Z then
             match acc with
             | Some q => if bool_decide (due q.2 <= due p.2)%Z then acc else Some p
             | None => Some p
             end
           else acc)
        None (map_to_list (intervals h)).

Lemma clearInterval_singleton (id : Z) (t : Timer) (h : Host) :
  intervals h = {[id := t]} -> intervals (clearInterval id h) = ∅.
Proof. intros E. cbn. rewrite E. apply delete_singleton_eq. Qed.

Lemma fire_singleton (id id' : Z) (t : Timer) (h : Host) (c : C) (h' : Host) :
  intervals h = {[id := t]} -> fire id' h = Some (c, h') ->
  id' = id /\ c = callback t /\ (due t <= now h)%Z /\
  h' = with_intervals {[id := mkTimer (callback t) (period t) (now h + period t)]} h.
Proof.
  unfold fire. intros E. rewrite E.
  destruct (decide (id = id')) as [<- | Hne].
  - rewrite lookup_singleton_eq. case_bool_decide; [| discriminate].
    intros [= <- <-]. rewrite insert_singleton_eq. auto.
  - rewrite lookup_singleton_ne by done. discriminate.
Qed.

Lemma fire_windowScrollY (id : Z) (h h' : Host) (c : C) :
  fire id h = Some (c, h') -> windowScrollY h' = windowScrollY h.
Proof.
  unfold fire. destruct (intervals h !! id); [| discriminate].
  case_bool_decide; [| discriminate]. by intros [= _ <-].
Qed.

Lemma fire_empty (id : Z) (h : Host) : intervals h = ∅ -> fire id h = None.
Proof. unfold fire. intros ->. rewrite lookup_empty. done. Qed.

Lemma next_due_empty (h : Host) (target : Z) : intervals h = ∅ -> next_due h target = None.
Proof. intros Hi. unfold next_due. by rewrite Hi, map_to_list_empty. Qed.

Lemma next_due_singleton (h : Host) (target id : Z) (t : Timer) :
  intervals h = {[id := t]} ->
  next_due h target = if bool_decide (due t <= target)%Z then Some (id, t) else None.
Proof. intros Hi. unfold next_due. by rewrite Hi, map_to_list_singleton. Qed.

(** ** Well-formed hosts *)

(** Every active timer id was handed out by [setInterval] and every
    registered listener's function object was allocated: the ids the
    browser issues next are fresh. *)
Definition host_wf (h : Host) : Prop :=
  (forall id t, intervals h !! id = Some t -> (id < nextTimerId h)%Z) /\
  (forall fid l, In (fid, l) (listeners h) -> (fid < nextObjectId h)%Z).

(** ** Undoing a registration *)

Lemma filter_Forall_id {A} (P : A -> Prop) `{forall x, Decision (P x)} (l : list A) :
  Forall P l -> filter P l = l.
Proof. induction 1; [done |]. rewrite filter_cons_True by done. by f_equal. Qed.

(** Clearing the interval [setInterval] returned restores the table: the
    id it issued was fresh. *)
Lemma setInterval_clearInterval (cb : C) (delay : Z) (h : Host) :
  host_wf h ->
  intervals (clearInterval (setInterval cb delay h).2 (setInterval cb delay h).1) = intervals h.
Proof.
  intros (Ht & _). cbn. apply delete_insert_id.
  destruct (intervals h !! nextTimerId h) as [t|] eqn:E; [| done].
  specialize (Ht _ _ E). lia.
Qed.

(** Removing a listener just registered under a new function object
    restores the listener list. *)
Lemma addEventListener_removeEventListener (l : L) (h : Host) :
  host_wf h ->
  listeners (removeEventListener (newFunction h).2
               (addEventListener (newFunction h).2 l (newFunction h).1)) = listeners h.
Proof.
  intros (_ & Hl).
  assert (Hnew : Forall (fun p : Z * L => p.1 <> nextObjectId h) (listeners h)).
  { apply Forall_forall. intros [f l'] Hi%list_elem_of_In. cbn. specialize (Hl _ _ Hi). lia. }
  assert (Hh : has_listener (nextObjectId h) (listeners h) = false).
  { apply not_true_iff_false. unfold has_listener.
    rewrite existsb_exists. intros ([f l'] & Hi & Hb). apply bool_decide_eq_true in Hb.
    cbn in Hb. subst f. specialize (Hl _ _ Hi). lia. }
  unfold addEventListener, removeEventListener, with_listeners, newFunction.
  cbn [fst snd listeners]. rewrite Hh. cbn [listeners].
  rewrite filter_app, (filter_singleton_False _ _ []) by (cbn; tauto).
  rewrite app_nil_r. by apply filter_Forall_id.
Qed.

End Host.

Arguments Timer C : clear implicits.
Arguments Host C L : clear implicits.
