(* ===== verification/Runtime.v ===== *)
(** The page at run time: React's passive-effect reconciliation ([Section
    Reconcile], generic in the component's effects), [App]'s two effects
    ([src/src/App.jsx], lines 11-18 and 20-28) and their cleanups over the
    browser of [Host], and the whole page as a transition system: clicks,
    scroll events, timer firings, elapsing time and unmount, with its
    invariants, its refinement of the spec's driver, and the event loop
    that brings it to a target time. *)

From stdpp Require Import base gmap list relations.
From Stdlib Require Import ZArith QArith Lia.
From S2P Require Import Prelude AppState Host.
Import App.

(** ** React's effect reconciliation *)

Section Reconcile.
Context {S E Cl B : Type}.
(** The dependency array of an effect in a render (the App's hold only
    booleans, compared with [Object.is], which on booleans is equality). *)
Context (deps : E -> S -> list bool).
(** The effect's body, returning its cleanup if it returns one. *)
Context (create : E -> S -> B -> B * option Cl).
Context (destroy : Cl -> B -> B).

(** The hook's record of an effect: its last dependencies and cleanup. *)
Record Slot := mkSlot { slotDeps : list bool; slotCleanup : option Cl }.

Definition run_destroy (o : option Cl) (b : B) : B :=
  match o with Some c => destroy c b | None => b end.

(** Mount: every effect runs, in hook order. *)
Fixpoint mount_effects (es : list E) (s : S) (b : B) : list Slot * B :=
  match es with
  | [] => ([], b)
  | e :: es' =>
      let '(b1, c) := create e s b in
      let '(sl, b2) := mount_effects es' s b1 in
      (mkSlot (deps e s) c :: sl, b2)
  end.

(** [areHookInputsEqual] failing. *)
Definition changed (e : E) (s : S) (sl : Slot) : bool :=
  negb (bool_decide (deps e s = slotDeps sl)).

(** After a commit, React first runs the cleanups of all the effects whose
    dependencies changed, in order, then their bodies, in order. *)
Fixpoint destroy_changed (es : list E) (sls : list Slot) (s : S) (b : B) : B :=
  match es, sls with
  | e :: es', sl :: sls' =>
      destroy_changed es' sls' s (if changed e s sl then run_destroy (slotCleanup sl) b else b)
  | _, _ => b
  end.

Fixpoint create_changed (es : list E) (sls : list Slot) (s : S) (b : B) : list Slot * B :=
  match es, sls with
  | e :: es', sl :: sls' =>
      if changed e s sl then
        let '(b1, c) := create e s b in
        let '(r, b2) := create_changed es' sls' s b1 in
        (mkSlot (deps e s) c :: r, b2)
      else
        let '(r, b2) := create_changed es' sls' s b in
        (sl :: r, b2)
  | _, _ => ([], b)
  end.

Definition commit_effects (es : list E) (sls : list Slot) (s : S) (b : B) : list Slot * B :=
  create_changed es sls s (destroy_changed es sls s b).

(** Unmount: every recorded cleanup runs, in order. *)
Definition unmount_effects (sls : list Slot) (b : B) : B :=
  fold_left (fun b sl => run_destroy (slotCleanup sl) b) sls b.

(** A commit whose dependencies are all unchanged runs nothing. *)
Lemma commit_effects_unchanged (es : list E) (sls : list Slot) (s : S) (b : B) :
  Forall2 (fun e sl => deps e s = slotDeps sl) es sls ->
  commit_effects es sls s b = (sls, b).
Proof.
  unfold commit_effects. intros HF.
  assert (destroy_changed es sls s b = b) as ->.
  { revert b. induction HF as [|e sl es' sls' He _ IH]; intros b; [done |].
    cbn. unfold changed. rewrite bool_decide_true by done. apply IH. }
  induction HF as [|e sl es' sls' He _ IH]; [done |].
  cbn. unfold changed. rewrite bool_decide_true by done. cbn. by rewrite IH.
Qed.

(** Commits preserve any property of the browser that the effect bodies and
    cleanups preserve. *)
Lemma commit_effects_preserves (P : B -> Prop) (es : list E) (sls : list Slot) (s : S) (b : B) :
  (forall e s b, P b -> P (create e s b).1) -> (forall c b, P b -> P (destroy c b)) ->
  P b -> P (commit_effects es sls s b).2.
Proof.
  intros Hc Hd. unfold commit_effects.
  assert (Hdc : forall b, P b -> P (destroy_changed es sls s b)).
  { revert sls. induction es as [|e es IH]; intros [|sl sls] b0 Hb; cbn; auto.
    apply IH. destruct (changed e s sl); [destruct (slotCleanup sl); cbn |]; auto. }
  intros Hb. specialize (Hdc b Hb). revert Hdc. clear Hb.
  generalize (destroy_changed es sls s b). revert sls.
  induction es as [|e es IH]; intros [|sl sls] b0 Hb; cbn; auto.
  destruct (changed e s sl).
  - destruct (create e s b0) as [b1 c] eqn:Ec.
    specialize (IH sls b1). destruct (create_changed es sls s b1) as [r b2].
    apply IH. change b1 with (b1, c).1. rewrite <- Ec. auto.
  - specialize (IH sls b0 Hb). by destruct (create_changed es sls s b0).
Qed.

Lemma mount_effects_preserves (P : B -> Prop) (es : list E) (s : S) (b : B) :
  (forall e s b, P b -> P (create e s b).1) -> P b -> P (mount_effects es s b).2.
Proof.
  intros Hc. revert b. induction es as [|e es IH]; intros b Hb; cbn; [done |].
  destruct (create e s b) as [b1 c] eqn:Ec.
  specialize (IH b1). destruct (mount_effects es s b1) as [sl b2]. apply IH.
  change b1 with (b1, c).1. rewrite <- Ec. auto.
Qed.

Lemma unmount_effects_preserves (P : B -> Prop) (sls : list Slot) (b : B) :
  (forall c b, P b -> P (destroy c b)) -> P b -> P (unmount_effects sls b).
Proof.
  intros Hd. unfold unmount_effects. revert b.
  induction sls as [|sl sls IH]; intros b Hb; cbn; [done |].
  apply IH. destruct (slotCleanup sl); cbn; auto.
Qed.

End Reconcile.

Arguments Slot Cl : clear implicits.

(** ** The App's effects *)

(** The interval callback closure, created by the effect run of the render
    whose state is [rendered] (line 23). *)
Inductive Closure := TickClosure (rendered : AppState).

(** [handleScroll] (lines 12-14). *)
Inductive Listener := HandleScroll.

(** The cleanups the effects return (lines 17 and 27). *)
Inductive Cleanup :=
| RemoveScrollListener (fid : Z)
| ClearInterval (id : Z).

Abbreviation BrowserHost := (Host Closure Listener).

(** The two [useEffect] calls, in hook order. *)
Inductive AppEffect := ScrollEffect | IntervalEffect.

Definition appEffects : list AppEffect := [ScrollEffect; IntervalEffect].

Definition effectDeps (e : AppEffect) (s : AppState) : list bool :=
  match e with
  | ScrollEffect => []
  | IntervalEffect => [isPlaying s]
  end.

(** The effect bodies: lines 11-17 and 20-27. *)
Definition runEffect (e : AppEffect) (s : AppState) (h : BrowserHost)
  : BrowserHost * option Cleanup :=
  match e with
  | ScrollEffect =>
      let '(h1, fid) := newFunction h in
      (addEventListener fid HandleScroll h1, Some (RemoveScrollListener fid))
  | IntervalEffect =>
      if negb (isPlaying s) then (h, None)
      else
        let '(h1, id) := setInterval (TickClosure s) 2000 h in
        (h1, Some (ClearInterval id))
  end.

Definition runCleanup (c : Cleanup) (h : BrowserHost) : BrowserHost :=
  match c with
  | RemoveScrollListener fid => removeEventListener fid h
  | ClearInterval id => clearInterval id h
  end.

(** What running a closure queues. *)
Definition runClosure (c : Closure) : Update :=
  match c with TickClosure _ => intervalCallback end.

Definition runListener (l : Listener) (h : BrowserHost) : Update :=
  match l with HandleScroll => handleScroll (windowScrollY h) end.

(** ** The page as a transition system *)

Record Sys := mkSys {
  app : AppState;
  slots : list (Slot Cleanup);
  host : BrowserHost;
  mounted : bool
}.

(** Apply the batch, re-render, and reconcile the effects. *)
Definition render_commit (x : Sys) (h : BrowserHost) (us : list Update) : Sys :=
  let s' := apply_updates (app x) us in
  let '(sl, h') := commit_effects effectDeps runEffect runCleanup appEffects (slots x) s' h in
  mkSys s' sl h' (mounted x).

Definition mount (h0 : BrowserHost) : Sys :=
  let '(sl, h) := mount_effects effectDeps runEffect appEffects initialState h0 in
  mkSys initialState sl h true.

Inductive Event :=
| Click (b : Button)
| ScrollTo (y : Q)
| Fire (id : Z)
| Elapse (dt : Z)
| Unmount
| Remount.

(** React re-running the effects of a component that stays mounted: all
    cleanups, then all bodies, with the state kept. This is what
    StrictMode's development double invocation does right after the first
    mount, and what Fast Refresh and a hidden-then-shown [<Activity>] do. *)
Definition remount (x : Sys) : Sys :=
  let h1 := unmount_effects runCleanup (slots x) (host x) in
  let '(sl, h) := mount_effects effectDeps runEffect appEffects (app x) h1 in
  mkSys (app x) sl h true.

(** One transition; [None] when the event cannot happen. *)
Definition step (x : Sys) (e : Event) : option Sys :=
  if negb (mounted x) then None else
  match e with
  | Click b => Some (render_commit x (host x) [onClick b (app x)])
  | ScrollTo y =>
      let h := scrollTo y (host x) in
      Some (render_commit x h (map (fun p => runListener p.2 h) (listeners h)))
  | Fire id =>
      match fire id (host x) with
      | Some (c, h) => Some (render_commit x h [runClosure c])
      | None => None
      end
  | Elapse dt =>
      if bool_decide (0 <= dt)%Z then Some (mkSys (app x) (slots x) (elapse dt (host x)) true)
      else None
  | Unmount => Some (mkSys (app x) [] (unmount_effects runCleanup (slots x) (host x)) false)
  | Remount => Some (remount x)
  end.

(** The browser before the page's script runs: no interval, no listener. *)
Definition fresh_host (h : BrowserHost) : Prop := intervals h = ∅ /\ listeners h = [].

Inductive reachable : Sys -> Prop :=
| reach_mount h0 : fresh_host h0 -> reachable (mount h0)
| reach_step x e x' : reachable x -> step x e = Some x' -> reachable x'.

(** ** The invariant *)

Definition scrollSlot (fid : Z) : Slot Cleanup := mkSlot [] (Some (RemoveScrollListener fid)).

(** While playing, exactly one interval, due within one period, whose
    cleanup the effect slot holds; while paused, none. *)
Definition timers_ok (playing : bool) (sl : list (Slot Cleanup)) (fid : Z)
    (h : BrowserHost) : Prop :=
  if playing then
    exists id t, sl = [scrollSlot fid; mkSlot [true] (Some (ClearInterval id))] /\
      intervals h = {[id := t]} /\ period t = 2000%Z /\ (due t <= now h + 2000)%Z
  else sl = [scrollSlot fid; mkSlot [false] None] /\ intervals h = ∅.

Definition interval_ok (x : Sys) (fid : Z) : Prop :=
  timers_ok (isPlaying (app x)) (slots x) fid (host x).

Definition inv (x : Sys) : Prop :=
  if mounted x then
    step_ok (app x) = true /\
    exists fid, listeners (host x) = [(fid, HandleScroll)] /\ interval_ok x fid
  else intervals (host x) = ∅ /\ listeners (host x) = [].

(** The effects mounted on a browser without scroll listeners: the
    listener under a new function object and, while playing, a fresh
    interval due one period ahead. *)
Lemma mount_effects_fresh (s : AppState) (h : BrowserHost) :
  listeners h = [] ->
  mount_effects effectDeps runEffect appEffects s h =
  let h1 := mkHost (now h) (intervals h) (nextTimerId h) [(nextObjectId h, HandleScroll)]
              (nextObjectId h + 1) (windowScrollY h) in
  if isPlaying s then
    ([scrollSlot (nextObjectId h); mkSlot [true] (Some (ClearInterval (nextTimerId h)))],
     (setInterval (TickClosure s) 2000 h1).1)
  else ([scrollSlot (nextObjectId h); mkSlot [false] None], h1).
Proof. intros Hl. destruct h; cbn in *; subst. by destruct (isPlaying s). Qed.

Lemma mount_fresh_inv (s : AppState) (h : BrowserHost) :
  fresh_host h -> step_ok s = true ->
  inv (let '(sl, h') := mount_effects effectDeps runEffect appEffects s h in mkSys s sl h' true).
Proof.
  intros [Hi Hl] Hok. rewrite mount_effects_fresh by done. cbn zeta.
  destruct (isPlaying s) eqn:Ep; unfold inv, interval_ok, timers_ok; cbn; rewrite Ep;
    (split; [done |]); exists (nextObjectId h); (split; [done |]).
  - do 2 eexists. rewrite Hi, insert_empty. split_and!; [done | done | done | cbn; lia].
  - done.
Qed.

Lemma mount_inv (h0 : BrowserHost) : fresh_host h0 -> inv (mount h0).
Proof. intros Hf. by apply mount_fresh_inv. Qed.

(** The cleanups leave the clock, the counters and the scroll position. *)
Lemma unmount_effects_frame (sl : list (Slot Cleanup)) (h : BrowserHost) :
  now (unmount_effects runCleanup sl h) = now h /\
  nextTimerId (unmount_effects runCleanup sl h) = nextTimerId h /\
  nextObjectId (unmount_effects runCleanup sl h) = nextObjectId h /\
  windowScrollY (unmount_effects runCleanup sl h) = windowScrollY h.
Proof.
  apply (unmount_effects_preserves runCleanup (fun h' => now h' = now h /\
    nextTimerId h' = nextTimerId h /\ nextObjectId h' = nextObjectId h /\
    windowScrollY h' = windowScrollY h)); [| done].
  intros [] h'; cbn; tauto.
Qed.

(** A render that keeps [isPlaying] commits nothing. *)
Lemma commit_same (sl : list (Slot Cleanup)) (fid : Z) (b : bool) (o : option Cleanup)
    (s' : AppState) (h : BrowserHost) :
  sl = [scrollSlot fid; mkSlot [b] o] -> isPlaying s' = b ->
  commit_effects effectDeps runEffect runCleanup appEffects sl s' h = (sl, h).
Proof.
  intros -> Hb. apply commit_effects_unchanged. repeat constructor. cbn. by rewrite Hb.
Qed.

(** Compute a commit of the App's two effects. *)
Ltac commit_simpl Hp :=
  unfold commit_effects; cbn; unfold changed; cbn; rewrite ?Hp;
  repeat (rewrite bool_decide_true by done || rewrite bool_decide_false by done);
  cbn; reflexivity.

(** Pausing: the interval's cleanup clears it and the body registers
    nothing. *)
Lemma commit_pause (fid id : Z) (s' : AppState) (h : BrowserHost) :
  isPlaying s' = false ->
  commit_effects effectDeps runEffect runCleanup appEffects
    [scrollSlot fid; mkSlot [true] (Some (ClearInterval id))] s' h =
  ([scrollSlot fid; mkSlot [false] None], clearInterval id h).
Proof. intros Hp. commit_simpl Hp. Qed.

(** Resuming: nothing to clean up; the body registers a fresh interval. *)
Lemma commit_resume (fid : Z) (s' : AppState) (h : BrowserHost) :
  isPlaying s' = true ->
  commit_effects effectDeps runEffect runCleanup appEffects
    [scrollSlot fid; mkSlot [false] None] s' h =
  ([scrollSlot fid; mkSlot [true] (Some (ClearInterval (nextTimerId h)))],
   (setInterval (TickClosure s') 2000 h).1).
Proof. intros Hp. commit_simpl Hp. Qed.

Lemma timers_ok_now (p : bool) (sl : list (Slot Cleanup)) (fid : Z) (h h' : BrowserHost) :
  timers_ok p sl fid h -> intervals h' = intervals h -> (now h <= now h')%Z ->
  timers_ok p sl fid h'.
Proof.
  unfold timers_ok. intros Ht Hi Hn. destruct p.
  - destruct Ht as (id & t & ? & ? & ? & ?). exists id, t. rewrite Hi. auto with lia.
  - rewrite Hi. done.
Qed.

(** A render and commit from a state satisfying the invariant, on a host
    whose timers satisfy it, satisfies it. *)
Lemma commit_inv (x : Sys) (fid : Z) (h : BrowserHost) (us : list Update) :
  mounted x = true -> timers_ok (isPlaying (app x)) (slots x) fid h ->
  listeners h = [(fid, HandleScroll)] ->
  step_ok (apply_updates (app x) us) = true ->
  inv (render_commit x h us).
Proof.
  intros Hm Ht Hl Hok. unfold render_commit.
  remember (apply_updates (app x) us) as s' eqn:Es'. clear Es'.
  unfold timers_ok in Ht.
  destruct (isPlaying (app x)) eqn:Ep, (isPlaying s') eqn:Ep'.
  - destruct Ht as (id & t & Hsl & Hi & Hp & Hd).
    rewrite (commit_same _ fid true _ s' h Hsl Ep').
    unfold inv, interval_ok, timers_ok. cbn. rewrite Hm, Ep'.
    split; [done |]. exists fid. split; [done |]. exists id, t. auto.
  - destruct Ht as (id & t & -> & Hi & Hp & Hd). rewrite commit_pause by done.
    unfold inv, interval_ok, timers_ok. cbn. rewrite Hm, Ep'.
    split; [done |]. exists fid. split; [done |]. split; [done |].
    by apply clearInterval_singleton with t.
  - destruct Ht as [-> Hi]. rewrite commit_resume by done.
    unfold inv, interval_ok, timers_ok. cbn. rewrite Hm, Ep'.
    split; [done |]. exists fid. split; [done |].
    eexists _, _. rewrite Hi, insert_empty. split; [done |]. split; [reflexivity |]. cbn. lia.
  - destruct Ht as [Hsl Hi]. rewrite (commit_same _ fid false _ s' h Hsl Ep').
    unfold inv, interval_ok, timers_ok. cbn. rewrite Hm, Ep'. split; [done |]. exists fid. auto.
Qed.

Lemma remove_only_listener (fid : Z) (h : BrowserHost) :
  listeners h = [(fid, HandleScroll)] -> listeners (removeEventListener fid h) = [].
Proof. intros Hl. cbn. rewrite Hl. cbn. rewrite decide_False; [done | tauto]. Qed.

(** The cleanups recorded under the invariant release everything. *)
Lemma unmount_inv (x : Sys) (fid : Z) :
  listeners (host x) = [(fid, HandleScroll)] -> interval_ok x fid ->
  intervals (unmount_effects runCleanup (slots x) (host x)) = ∅ /\
  listeners (unmount_effects runCleanup (slots x) (host x)) = [].
Proof.
  unfold interval_ok, timers_ok. intros Hl Ht. destruct (isPlaying (app x)).
  - destruct Ht as (id & t & -> & Hi & _). cbn. split.
    + by apply clearInterval_singleton with t.
    + by apply remove_only_listener.
  - destruct Ht as [-> Hi]. cbn. split; [done |]. by apply remove_only_listener.
Qed.

(** The interval's closure queues the same update whichever render
    created it. *)
Lemma runClosure_tick (c : Closure) : runClosure c = intervalCallback.
Proof. by destruct c. Qed.

Lemma step_inv (x x' : Sys) (e : Event) : inv x -> step x e = Some x' -> inv x'.
Proof.
  unfold step. destruct (mounted x) eqn:Hm; [| discriminate]. cbn.
  unfold inv at 1. rewrite Hm. intros [Hok [fid [Hl Ht]]].
  destruct e as [b | y | id | dt | |]; cbn.
  - intros [= <-]. apply commit_inv with fid; auto.
    apply program_updates_step_ok; [repeat constructor | done].
  - intros [= <-]. apply commit_inv with fid; [done | | done | ].
    + apply timers_ok_now with (host x); [done | done | cbn; lia].
    + cbn. rewrite Hl. apply program_updates_step_ok; [repeat constructor | done].
  - destruct (fire id (host x)) as [[c h]|] eqn:Hf; [| discriminate]. intros [= <-].
    unfold interval_ok, timers_ok in Ht. destruct (isPlaying (app x)) eqn:Ep.
    + destruct Ht as (id0 & t & Hsl & Hi & Hp & Hd).
      apply (fire_singleton id0 id t) in Hf as (-> & -> & Hdue & ->); [| done].
      apply commit_inv with fid; [done | | done | ].
      * unfold timers_ok. rewrite Ep. exists id0, (mkTimer (callback t) (period t) (now (host x) + period t)).
        cbn. rewrite Hp. auto with lia.
      * rewrite runClosure_tick. apply program_updates_step_ok; [repeat constructor | done].
    + destruct Ht as [_ Hi]. rewrite fire_empty in Hf by done. discriminate.
  - case_bool_decide; [| discriminate]. intros [= <-].
    unfold inv. cbn. split; [done |]. exists fid. split; [done |].
    apply timers_ok_now with (host x); [done | done | cbn; lia].
  - intros [= <-]. unfold inv. cbn. by apply unmount_inv with fid.
  - intros [= <-]. destruct (unmount_inv x fid Hl Ht) as [Hi Hl'].
    by apply mount_fresh_inv.
Qed.

Lemma inv_of_reachable (x : Sys) : reachable x -> inv x.
Proof.
  induction 1 as [h0 Hf | x e x' _ IH Hs].
  - by apply mount_inv.
  - by apply step_inv with x e.
Qed.

Lemma render_commit_app (x : Sys) (h : BrowserHost) (us : list Update) :
  app (render_commit x h us) = apply_updates (app x) us.
Proof. unfold render_commit. by destruct (commit_effects _ _ _ _ _ _ _). Qed.

Lemma render_commit_mounted (x : Sys) (h : BrowserHost) (us : list Update) :
  mounted (render_commit x h us) = mounted x.
Proof. unfold render_commit. by destruct (commit_effects _ _ _ _ _ _ _). Qed.

Lemma remount_app (x : Sys) : app (remount x) = app x.
Proof. unfold remount. by destruct (mount_effects _ _ _ _ _). Qed.

Lemma remount_mounted (x : Sys) : mounted (remount x) = true.
Proof. unfold remount. by destruct (mount_effects _ _ _ _ _). Qed.


(** ** The abstract animation driver *)

(** The state machine the spec states in its sections 3 and 4: the five
    pieces of view state and whether the component is active, with one
    rule per transition the spec names, and stuttering. *)
Module DriverSpec.

Record State := mkState {
  playing : bool;
  phase : Z;
  dark : bool;
  trails : bool;
  offset : Q;
  active : bool
}.

Inductive astep : State -> State -> Prop :=
| tick ph d tr o :
    astep (mkState true ph d tr o true) (mkState true ((ph + 1) mod 4) d tr o true)
| toggle_play p ph d tr o :
    astep (mkState p ph d tr o true) (mkState (negb p) ph d tr o true)
| reset p ph d tr o :
    astep (mkState p ph d tr o true) (mkState p 0 d tr o true)
| toggle_theme p ph d tr o :
    astep (mkState p ph d tr o true) (mkState p ph (negb d) tr o true)
| toggle_trails p ph d tr o :
    astep (mkState p ph d tr o true) (mkState p ph d (negb tr) o true)
| scroll p ph d tr o o' :
    astep (mkState p ph d tr o true) (mkState p ph d tr o' true)
| teardown p ph d tr o :
    astep (mkState p ph d tr o true) (mkState p ph d tr o false)
| stutter a : astep a a.

(** The driver at load: playing from step 0, dark theme, trails shown,
    page at the top. *)
Definition init : State := mkState true 0 true true 0 true.

End DriverSpec.

(** The abstraction of a page state. *)
Definition abs (x : Sys) : DriverSpec.State :=
  DriverSpec.mkState (isPlaying (app x)) (animationStep (app x)) (isDarkMode (app x))
    (showTrails (app x)) (scrollY (app x)) (mounted x).

(** A browser at time 0 before the page's script runs. *)
Definition initialHost : BrowserHost :=
  {| now := 0; intervals := ∅; nextTimerId := 1; listeners := [];
     nextObjectId := 1; windowScrollY := 0 |}.

(** A run: the events in order, each applied to the state the previous one
    left. *)
Fixpoint run (x : Sys) (es : list Event) : option Sys :=
  match es with
  | [] => Some x
  | e :: es' => match step x e with Some x' => run x' es' | None => None end
  end.

Lemma run_app (x : Sys) (es1 es2 : list Event) :
  run x (es1 ++ es2) = match run x es1 with Some x' => run x' es2 | None => None end.
Proof.
  revert x. induction es1 as [|e es1 IH]; intros x; [done |]. cbn.
  destruct (step x e); [apply IH | done].
Qed.

Lemma run_reachable (x x' : Sys) (es : list Event) :
  reachable x -> run x es = Some x' -> reachable x'.
Proof.
  revert x. induction es as [|e es IH]; intros x R; cbn; [by intros [= <-] |].
  destruct (step x e) as [x1|] eqn:Hs; [| discriminate].
  apply IH. by apply reach_step with x e.
Qed.

(** ** Theorems on the running page *)

(** C1: in every reachable state, while the page is mounted, the step is
    one of 0..3, exactly one scroll listener is registered, and there is
    one interval while playing and none while paused; once unmounted, no
    interval and no listener remain. *)
Theorem reachable_resources (x : Sys) :
  reachable x ->
  if mounted x then
    (0 <= animationStep (app x) < 4)%Z /\ length (listeners (host x)) = 1%nat /\
    size (intervals (host x)) = (if isPlaying (app x) then 1 else 0)%nat
  else intervals (host x) = ∅ /\ listeners (host x) = [].
Proof.
  intros R. pose proof (inv_of_reachable x R) as I. unfold inv in I.
  destruct (mounted x); [| done].
  destruct I as [Hok (fid & Hl & Ht)]. apply step_ok_spec in Hok.
  split; [done |]. rewrite Hl. split; [done |].
  unfold interval_ok, timers_ok in Ht. destruct (isPlaying (app x)).
  - destruct Ht as (id & t & _ & -> & _). apply map_size_singleton.
  - destruct Ht as [_ ->]. apply map_size_empty.
Qed.

Lemma reachable_resources_witness :
  reachable (mount initialHost) /\
  (if mounted (mount initialHost) then
    (0 <= animationStep (app (mount initialHost)) < 4)%Z /\
    length (listeners (host (mount initialHost))) = 1%nat /\
    size (intervals (host (mount initialHost))) =
      (if isPlaying (app (mount initialHost)) then 1 else 0)%nat
  else intervals (host (mount initialHost)) = ∅ /\ listeners (host (mount initialHost)) = []).
Proof.
  assert (R : reachable (mount initialHost)) by (apply reach_mount; split; reflexivity).
  split; [exact R | apply (reachable_resources _ R)].
Defined.

(** C2: the page refines the spec's driver: every run of the page from
    its mount, abstracted, is a run of the abstract machine from its
    initial state; each transition is a transition or a stutter of it, so
    in particular the step only ever advances by [(n + 1) mod 4], and only
    while playing. *)
Theorem refines_driver (h0 : BrowserHost) (es : list Event) (x' : Sys) :
  fresh_host h0 -> run (mount h0) es = Some x' -> rtc DriverSpec.astep DriverSpec.init (abs x').
Proof.
  intros Hf. assert (Hstep : forall x x' e, reachable x -> step x e = Some x' ->
    DriverSpec.astep (abs x) (abs x')).
  { intros x x1 e R. pose proof (inv_of_reachable x R) as I.
    unfold step, inv in *. destruct (mounted x) eqn:Hm; [| discriminate]. cbn.
    destruct I as [Hok (fid & Hl & Ht)]. apply step_ok_spec in Hok.
    unfold abs. rewrite Hm.
    destruct e as [b | y | id | dt | |]; cbn.
    - intros [= <-]. rewrite render_commit_app, render_commit_mounted, Hm.
      destruct b; cbn; constructor.
    - intros [= <-]. rewrite render_commit_app, render_commit_mounted, Hm.
      cbn. rewrite Hl. cbn. constructor.
    - destruct (fire id (host x)) as [[c h]|] eqn:Hfi; [| discriminate]. intros [= <-].
      rewrite render_commit_app, render_commit_mounted.
      unfold interval_ok, timers_ok in Ht. destruct (isPlaying (app x)) eqn:Ep.
      + rewrite runClosure_tick, Hm. cbn. rewrite Ep. unfold nextStep.
        rewrite rem_mod_nonneg by lia. constructor.
      + destruct Ht as [_ Hi]. rewrite fire_empty in Hfi by done. discriminate.
    - case_bool_decide; [| discriminate]. intros [= <-]. cbn. constructor.
    - intros [= <-]. cbn. constructor.
    - intros [= <-]. rewrite remount_app, remount_mounted. constructor. }
  assert (Hinit : abs (mount h0) = DriverSpec.init)
    by (unfold mount; by destruct (mount_effects _ _ _ _ _)).
  rewrite <- Hinit. generalize (reach_mount h0 Hf). generalize (mount h0).
  induction es as [|e es IH]; intros x R; cbn; [by intros [= <-] |].
  destruct (step x e) as [x1|] eqn:Hs; [| discriminate]. intros Hr.
  eapply rtc_l; [exact (Hstep _ _ _ R Hs) | exact (IH x1 (reach_step _ _ _ R Hs) Hr)].
Qed.

(** A session: pause, resume, wait one period, the tick, reset, scroll. *)
Definition session : list Event :=
  [Click PlayButton; Click PlayButton; Elapse 2000; Fire 2; Click ResetButton; ScrollTo 300].

Lemma refines_driver_witness :
  fresh_host initialHost /\
  exists x', run (mount initialHost) session = Some x' /\
    rtc DriverSpec.astep DriverSpec.init (abs x').
Proof.
  assert (Hf : fresh_host initialHost) by (split; reflexivity).
  split; [exact Hf |]. eexists. split; [reflexivity |].
  apply (refines_driver initialHost session); [exact Hf | reflexivity].
Defined.

(** C3: while paused, no event but a click (elapsing time, a timer, a
    scroll, unmounting) changes the step: no interval is left to fire. *)
Theorem paused_step_stable (x x' : Sys) (e : Event) :
  reachable x -> isPlaying (app x) = false -> (forall b, e <> Click b) ->
  step x e = Some x' -> animationStep (app x') = animationStep (app x).
Proof.
  intros R Ep Hc. pose proof (inv_of_reachable x R) as I.
  unfold step, inv in *. destruct (mounted x); [| discriminate]. cbn.
  destruct I as [_ (fid & Hl & Ht)]. unfold interval_ok, timers_ok in Ht. rewrite Ep in Ht.
  destruct Ht as [_ Hi].
  destruct e as [b | y | id | dt | |]; cbn.
  - by destruct (Hc b).
  - intros [= <-]. rewrite render_commit_app. cbn. by rewrite Hl.
  - by rewrite fire_empty.
  - case_bool_decide; [| discriminate]. by intros [= <-].
  - by intros [= <-].
  - intros [= <-]. by rewrite remount_app.
Qed.

Lemma paused_step_stable_witness :
  let x := render_commit (mount initialHost) (host (mount initialHost))
             [onClick PlayButton (app (mount initialHost))] in
  reachable x /\ isPlaying (app x) = false /\ (forall b, Elapse 5000 <> Click b) /\
  step x (Elapse 5000) = Some (mkSys (app x) (slots x) (elapse 5000 (host x)) true) /\
  animationStep (app (mkSys (app x) (slots x) (elapse 5000 (host x)) true)) = animationStep (app x).
Proof.
  intros x.
  assert (R : reachable x).
  { apply reach_step with (mount initialHost) (Click PlayButton);
      [apply reach_mount; split; reflexivity | reflexivity]. }
  assert (Ep : isPlaying (app x) = false) by reflexivity.
  assert (Hc : forall b, Elapse 5000 <> Click b) by discriminate.
  assert (S : step x (Elapse 5000) = Some (mkSys (app x) (slots x) (elapse 5000 (host x)) true))
    by reflexivity.
  split; [exact R | split; [exact Ep | split; [exact Hc | split; [exact S |]]]].
  exact (paused_step_stable _ _ _ R Ep Hc S).
Defined.

(** C4: while playing, within one period of 2000 ms the interval becomes
    due: letting 2000 ms pass enables its firing, which advances the step
    to [(n + 1) % 4]. *)
Theorem playing_tick_live (x : Sys) :
  reachable x -> mounted x = true -> isPlaying (app x) = true ->
  exists id x1 x2, step x (Elapse 2000) = Some x1 /\ step x1 (Fire id) = Some x2 /\
    animationStep (app x2) = nextStep (animationStep (app x)).
Proof.
  intros R Hm Ep. pose proof (inv_of_reachable x R) as I.
  unfold inv, interval_ok, timers_ok in I. rewrite Hm, Ep in I.
  destruct I as [_ (fid & Hl & id & t & Hsl & Hi & Hp & Hd)].
  set (x1 := mkSys (app x) (slots x) (elapse 2000 (host x)) true).
  assert (Hf : fire id (host x1) =
    Some (callback t, with_intervals
      (<[id := mkTimer (callback t) (period t) (now (host x1) + period t)]> (intervals (host x1)))
      (host x1))).
  { unfold fire. cbn. rewrite Hi, lookup_singleton_eq, bool_decide_true by lia. done. }
  eexists id, x1, _. split; [unfold step; by rewrite Hm |]. split.
  - unfold step. replace (mounted x1) with true by reflexivity. cbn [negb].
    rewrite Hf. reflexivity.
  - rewrite render_commit_app, runClosure_tick. reflexivity.
Qed.

Lemma playing_tick_live_witness :
  reachable (mount initialHost) /\ mounted (mount initialHost) = true /\
  isPlaying (app (mount initialHost)) = true /\
  exists id x1 x2, step (mount initialHost) (Elapse 2000) = Some x1 /\
    step x1 (Fire id) = Some x2 /\
    animationStep (app x2) = nextStep (animationStep (app (mount initialHost))).
Proof.
  assert (R : reachable (mount initialHost)) by (apply reach_mount; split; reflexivity).
  assert (Hm : mounted (mount initialHost) = true) by reflexivity.
  assert (Ep : isPlaying (app (mount initialHost)) = true) by reflexivity.
  split; [exact R | split; [exact Hm | split; [exact Ep | exact (playing_tick_live _ R Hm Ep)]]].
Defined.

(** C8: unmounting releases everything the effects acquired: no interval
    and no scroll listener remain, whatever the playback state. *)
Theorem unmount_releases (x x' : Sys) :
  reachable x -> step x Unmount = Some x' ->
  intervals (host x') = ∅ /\ listeners (host x') = [].
Proof.
  intros R Hs. pose proof (inv_of_reachable x' (reach_step _ _ _ R Hs)) as I.
  unfold step in Hs. destruct (mounted x); [| discriminate].
  injection Hs as <-. exact I.
Qed.

Lemma unmount_releases_witness :
  reachable (mount initialHost) /\
  step (mount initialHost) Unmount =
    Some (mkSys (app (mount initialHost)) []
            (unmount_effects runCleanup (slots (mount initialHost)) (host (mount initialHost))) false) /\
  intervals (unmount_effects runCleanup (slots (mount initialHost)) (host (mount initialHost))) = ∅ /\
  listeners (unmount_effects runCleanup (slots (mount initialHost)) (host (mount initialHost))) = [].
Proof.
  assert (R : reachable (mount initialHost)) by (apply reach_mount; split; reflexivity).
  assert (S : step (mount initialHost) Unmount =
    Some (mkSys (app (mount initialHost)) []
            (unmount_effects runCleanup (slots (mount initialHost)) (host (mount initialHost))) false))
    by reflexivity.
  split; [exact R | split; [exact S | exact (unmount_releases _ _ R S)]].
Defined.

(** C10: the reset button sets the step to 0 whatever the step and the
    playback state, and leaves the browser and the effects alone: a running
    interval keeps its schedule. *)
Theorem reset_click (x x' : Sys) :
  reachable x -> step x (Click ResetButton) = Some x' ->
  animationStep (app x') = 0%Z /\ isPlaying (app x') = isPlaying (app x) /\
  host x' = host x /\ slots x' = slots x.
Proof.
  intros R. pose proof (inv_of_reachable x R) as I.
  unfold step, inv in *. destruct (mounted x) eqn:Hm; [| discriminate]. cbn.
  intros [= <-]. destruct I as [_ (fid & _ & Ht)].
  unfold interval_ok, timers_ok in Ht. unfold render_commit.
  assert (Hsl : exists o, slots x = [scrollSlot fid; mkSlot [isPlaying (app x)] o]).
  { destruct (isPlaying (app x)).
    - destruct Ht as (id & _ & -> & _). eauto.
    - destruct Ht as [-> _]. eauto. }
  destruct Hsl as [o Hsl].
  rewrite (commit_same _ fid (isPlaying (app x)) o _ (host x) Hsl) by reflexivity.
  cbn. auto.
Qed.

Lemma reset_click_witness :
  reachable (mount initialHost) /\
  step (mount initialHost) (Click ResetButton) = Some (render_commit (mount initialHost)
    (host (mount initialHost)) [onClick ResetButton (app (mount initialHost))]) /\
  let x' := render_commit (mount initialHost) (host (mount initialHost))
              [onClick ResetButton (app (mount initialHost))] in
  animationStep (app x') = 0%Z /\ isPlaying (app x') = isPlaying (app (mount initialHost)) /\
  host x' = host (mount initialHost) /\ slots x' = slots (mount initialHost).
Proof.
  assert (R : reachable (mount initialHost)) by (apply reach_mount; split; reflexivity).
  assert (S : step (mount initialHost) (Click ResetButton) = Some (render_commit (mount initialHost)
    (host (mount initialHost)) [onClick ResetButton (app (mount initialHost))])) by reflexivity.
  split; [exact R | split; [exact S | exact (reset_click _ _ R S)]].
Defined.

(** C11: pausing and resuming leaves exactly one interval, a fresh one,
    first due a full period after the resume: the old interval is cleared
    (no leak, no double speed) and the cadence restarts. *)
Theorem pause_resume_fresh_interval (x : Sys) :
  reachable x -> mounted x = true -> isPlaying (app x) = true ->
  exists x1 x2, step x (Click PlayButton) = Some x1 /\ step x1 (Click PlayButton) = Some x2 /\
    isPlaying (app x2) = true /\
    exists t, intervals (host x2) = {[nextTimerId (host x) := t]} /\
      due t = (now (host x) + 2000)%Z.
Proof.
  intros R Hm Ep. pose proof (inv_of_reachable x R) as I.
  unfold inv, interval_ok, timers_ok in I. rewrite Hm, Ep in I.
  destruct I as [_ (fid & _ & id & t & Hsl & Hi & _)].
  assert (Hx1 : render_commit x (host x) [onClick PlayButton (app x)] =
    mkSys (apply_update (app x) (onClick PlayButton (app x)))
      [scrollSlot fid; mkSlot [false] None] (clearInterval id (host x)) true).
  { unfold render_commit. rewrite Hsl, commit_pause by (cbn; by rewrite Ep). by rewrite Hm. }
  unfold step. rewrite Hm. cbn [negb]. rewrite Hx1. cbn [mounted negb].
  eexists _, _. split; [reflexivity |]. split; [reflexivity |].
  unfold render_commit. cbn [slots app host mounted].
  rewrite commit_resume by (cbn; by rewrite Ep).
  cbn. rewrite Ep. split; [reflexivity |].
  eexists. rewrite Hi, delete_singleton_eq, insert_empty.
  split; reflexivity.
Qed.

Lemma pause_resume_fresh_interval_witness :
  reachable (mount initialHost) /\ mounted (mount initialHost) = true /\
  isPlaying (app (mount initialHost)) = true /\
  exists x1 x2, step (mount initialHost) (Click PlayButton) = Some x1 /\
    step x1 (Click PlayButton) = Some x2 /\ isPlaying (app x2) = true /\
    exists t, intervals (host x2) = {[nextTimerId (host (mount initialHost)) := t]} /\
      due t = (now (host (mount initialHost)) + 2000)%Z.
Proof.
  assert (R : reachable (mount initialHost)) by (apply reach_mount; split; reflexivity).
  assert (Hm : mounted (mount initialHost) = true) by reflexivity.
  assert (Ep : isPlaying (app (mount initialHost)) = true) by reflexivity.
  split; [exact R | split; [exact Hm | split; [exact Ep |]]].
  exact (pause_resume_fresh_interval _ R Hm Ep).
Defined.

(** ** The scroll offset and [window.scrollY] *)

Lemma runEffect_scroll (e : AppEffect) (s : AppState) (h : BrowserHost) :
  windowScrollY (runEffect e s h).1 = windowScrollY h.
Proof.
  destruct e; cbn; [| destruct (isPlaying s); cbn; done].
  unfold addEventListener. by destruct (has_listener _ _).
Qed.

Lemma render_commit_scroll (x : Sys) (h : BrowserHost) (us : list Update) :
  windowScrollY (host (render_commit x h us)) = windowScrollY h.
Proof.
  unfold render_commit.
  pose proof (commit_effects_preserves effectDeps runEffect runCleanup
    (fun h' => windowScrollY h' = windowScrollY h) appEffects (slots x)
    (apply_updates (app x) us) h) as P.
  destruct (commit_effects _ _ _ _ _ _ _) as [sl h']. cbn in *. apply P; [| | done].
  - intros e s' b <-. apply runEffect_scroll.
  - by intros [].
Qed.

Lemma remount_scroll (x : Sys) : windowScrollY (host (remount x)) = windowScrollY (host x).
Proof.
  unfold remount.
  pose proof (mount_effects_preserves effectDeps runEffect
    (fun h' => windowScrollY h' = windowScrollY (host x)) appEffects (app x)
    (unmount_effects runCleanup (slots x) (host x))) as P.
  destruct (mount_effects _ _ _ _ _) as [sl h']. apply P.
  - intros e s' b <-. apply runEffect_scroll.
  - apply unmount_effects_frame.
Qed.

(** C15: once the state's [scrollY] equals [window.scrollY], every
    transition keeps them equal: scroll events copy the new position, and
    nothing else changes either. *)
Theorem scroll_mirror_preserved (x x' : Sys) (e : Event) :
  reachable x -> scrollY (app x) = windowScrollY (host x) -> step x e = Some x' ->
  scrollY (app x') = windowScrollY (host x').
Proof.
  intros R Hmir. pose proof (inv_of_reachable x R) as I.
  unfold step, inv in *. destruct (mounted x); [| discriminate]. cbn.
  destruct I as [_ (fid & Hl & _)].
  destruct e as [b | y | id | dt | |]; cbn.
  - intros [= <-]. rewrite render_commit_scroll, render_commit_app. by destruct b.
  - intros [= <-]. rewrite render_commit_scroll, render_commit_app. cbn. by rewrite Hl.
  - destruct (fire id (host x)) as [[c h]|] eqn:Hf; [| discriminate]. intros [= <-].
    rewrite render_commit_scroll, render_commit_app, runClosure_tick.
    rewrite (fire_windowScrollY _ _ _ _ Hf). done.
  - case_bool_decide; [| discriminate]. by intros [= <-].
  - intros [= <-]. cbn. rewrite (proj2 (proj2 (proj2 (unmount_effects_frame _ _)))).
    done.
  - intros [= <-]. by rewrite remount_scroll, remount_app.
Qed.

Lemma scroll_mirror_preserved_witness :
  reachable (mount initialHost) /\
  scrollY (app (mount initialHost)) = windowScrollY (host (mount initialHost)) /\
  step (mount initialHost) (ScrollTo 300) = Some (render_commit (mount initialHost)
    (scrollTo 300 (host (mount initialHost)))
    [handleScroll 300]) /\
  scrollY (app (render_commit (mount initialHost) (scrollTo 300 (host (mount initialHost)))
    [handleScroll 300])) =
  windowScrollY (host (render_commit (mount initialHost) (scrollTo 300 (host (mount initialHost)))
    [handleScroll 300])).
Proof.
  assert (R : reachable (mount initialHost)) by (apply reach_mount; split; reflexivity).
  assert (M : scrollY (app (mount initialHost)) = windowScrollY (host (mount initialHost)))
    by reflexivity.
  assert (S : step (mount initialHost) (ScrollTo 300) = Some (render_commit (mount initialHost)
    (scrollTo 300 (host (mount initialHost))) [handleScroll 300])) by reflexivity.
  split; [exact R | split; [exact M | split; [exact S | exact (scroll_mirror_preserved _ _ _ R M S)]]].
Defined.

(** C16: the state starts at [scrollY = 0] whatever the window's position:
    a page mounted already scrolled (a restored scroll position) lays out
    its parallax for offset 0 until the first scroll event. *)
Theorem mount_scroll_stale (h0 : BrowserHost) :
  ~ (windowScrollY h0 == 0) ->
  ~ (scrollY (app (mount h0)) == windowScrollY (host (mount h0))).
Proof.
  intros Hy E. destruct h0 as [t0 m0 tid0 ls0 oid0 y0]. cbn in *.
  unfold addEventListener in E. destruct (has_listener _ _); cbn in E; by apply Hy; symmetry.
Qed.

Lemma mount_scroll_stale_witness :
  ~ (windowScrollY (scrollTo 700 initialHost) == 0) /\
  ~ (scrollY (app (mount (scrollTo 700 initialHost))) ==
     windowScrollY (host (mount (scrollTo 700 initialHost)))).
Proof.
  assert (H : ~ (windowScrollY (scrollTo 700 initialHost) == 0)) by discriminate.
  split; [exact H | exact (mount_scroll_stale _ H)].
Defined.

(** ** Re-running the effects *)

(** C12: re-running the effects of a mounted page (StrictMode's double
    invocation, Fast Refresh) keeps the view state and the clock, leaves
    exactly one scroll listener, and replaces the interval, while playing,
    by a single fresh one due a full period later; while paused, none. *)
Theorem remount_restarts_interval (x x' : Sys) :
  reachable x -> step x Remount = Some x' ->
  app x' = app x /\ length (listeners (host x')) = 1%nat /\ now (host x') = now (host x) /\
  intervals (host x') =
    (if isPlaying (app x) then
       {[nextTimerId (host x) := mkTimer (TickClosure (app x)) 2000 (now (host x) + 2000)]}
     else ∅).
Proof.
  intros R. pose proof (inv_of_reachable x R) as I.
  unfold step, inv in *. destruct (mounted x); [| discriminate]. cbn. intros [= <-].
  destruct I as [_ (fid & Hl & Ht)].
  destruct (unmount_inv x fid Hl Ht) as [Hi Hl'].
  destruct (unmount_effects_frame (slots x) (host x)) as (Hn & Ht' & _).
  unfold remount. rewrite (mount_effects_fresh _ _ Hl'). cbn zeta.
  destruct (isPlaying (app x)); cbn; rewrite Hn, ?Ht', Hi, ?insert_empty; split_and!; try done.
Qed.

Lemma remount_restarts_interval_witness :
  reachable (mount initialHost) /\
  step (mount initialHost) Remount = Some (remount (mount initialHost)) /\
  app (remount (mount initialHost)) = app (mount initialHost) /\
  length (listeners (host (remount (mount initialHost)))) = 1%nat /\
  now (host (remount (mount initialHost))) = now (host (mount initialHost)) /\
  intervals (host (remount (mount initialHost))) =
    (if isPlaying (app (mount initialHost)) then
       {[nextTimerId (host (mount initialHost)) :=
           mkTimer (TickClosure (app (mount initialHost))) 2000 (now (host (mount initialHost)) + 2000)]}
     else ∅).
Proof.
  assert (R : reachable (mount initialHost)) by (apply reach_mount; split; reflexivity).
  assert (S : step (mount initialHost) Remount = Some (remount (mount initialHost))) by reflexivity.
  split; [exact R | split; [exact S | exact (remount_restarts_interval _ _ R S)]].
Defined.

(** ** Independent events commute *)

(** A render that keeps [isPlaying], on the effect slots of the invariant,
    only replaces the state and the browser. *)
Lemma render_commit_keep (x : Sys) (h : BrowserHost) (us : list Update) (fid : Z)
    (o : option Cleanup) :
  slots x = [scrollSlot fid; mkSlot [isPlaying (app x)] o] ->
  isPlaying (apply_updates (app x) us) = isPlaying (app x) ->
  render_commit x h us = mkSys (apply_updates (app x) us) (slots x) h (mounted x).
Proof.
  intros Hsl Hp. unfold render_commit.
  by rewrite (commit_same _ fid (isPlaying (app x)) o _ h Hsl Hp), Hsl.
Qed.

Lemma inv_slots (x : Sys) :
  inv x -> mounted x = true ->
  exists fid o, slots x = [scrollSlot fid; mkSlot [isPlaying (app x)] o] /\
    listeners (host x) = [(fid, HandleScroll)].
Proof.
  unfold inv, interval_ok, timers_ok. intros I Hm. rewrite Hm in I.
  destruct I as [_ (fid & Hl & Ht)]. exists fid.
  destruct (isPlaying (app x)); [destruct Ht as (id & t & Hsl & _) | destruct Ht as [Hsl _]];
    eexists; eauto.
Qed.

(** One simplification of a run on a mounted state with the invariant's
    slots: the mounted flag, a projection, or a render that keeps
    [isPlaying], by [K], an instance of [render_commit_keep]. *)
Ltac keep_step Hm Hsl Hl K :=
  first [ rewrite Hm
        | progress cbn [negb mounted host slots app]
        | rewrite K by
            (cbn; rewrite ?Hl; cbn; first [exact Hsl | reflexivity]) ].

(** C13: the theme and trails buttons are independent of the timer, of
    scrolling and of time: a click on either, followed by a timer firing,
    a scroll event or elapsing time, gives the same outcome as the two
    events in the other order. *)
Theorem independent_events_commute (x : Sys) (b : Button) (e : Event) :
  reachable x -> b = ThemeButton \/ b = TrailsButton ->
  (exists id, e = Fire id) \/ (exists y, e = ScrollTo y) \/ (exists dt, e = Elapse dt) ->
  run x [Click b; e] = run x [e; Click b].
Proof.
  intros R Hb He. destruct (mounted x) eqn:Hm.
  2: { assert (N : forall e', step x e' = None) by (intros; unfold step; by rewrite Hm).
       cbn [run]. by rewrite !N. }
  destruct (inv_slots x (inv_of_reachable x R) Hm) as (fid & o & Hsl & Hl).
  pose proof (fun x' h us => render_commit_keep x' h us fid o) as K.
  destruct Hb as [-> | ->]; destruct He as [[id ->] | [[y ->] | [dt ->]]];
    cbn [run]; unfold step.
  all: repeat keep_step Hm Hsl Hl K.
  all: try (destruct (fire id (host x)) as [[[r] h]|]); try case_bool_decide.
  all: repeat keep_step Hm Hsl Hl K.
  all: try (cbn [scrollTo listeners]; rewrite Hl); reflexivity.
Qed.

(** The page 2000 ms after mount, with the first tick due. *)
Definition tick_due : Sys :=
  mkSys (app (mount initialHost)) (slots (mount initialHost))
    (elapse 2000 (host (mount initialHost))) true.

Lemma independent_events_commute_witness :
  reachable tick_due /\ (ThemeButton = ThemeButton \/ ThemeButton = TrailsButton) /\
  ((exists id, Fire 1 = Fire id) \/ (exists y, Fire 1 = ScrollTo y) \/
   (exists dt, Fire 1 = Elapse dt)) /\
  run tick_due [Click ThemeButton; Fire 1] = run tick_due [Fire 1; Click ThemeButton].
Proof.
  assert (R0 : reachable (mount initialHost)) by (apply reach_mount; split; reflexivity).
  assert (R : reachable tick_due) by
    (apply (reach_step _ (Elapse 2000) _ R0); reflexivity).
  assert (Hb : ThemeButton = ThemeButton \/ ThemeButton = TrailsButton) by (left; reflexivity).
  assert (He : (exists id, Fire 1 = Fire id) \/ (exists y, Fire 1 = ScrollTo y) \/
     (exists dt, Fire 1 = Elapse dt)) by (left; exists 1%Z; reflexivity).
  split; [exact R | split; [exact Hb | split; [exact He |]]].
  exact (independent_events_commute _ _ _ R Hb He).
Defined.

(** ** Runs and the driver's cadence *)

(** Letting [d] ms pass, enough to reach the due time of the page's only
    interval, and firing it advances the step once and schedules the next
    firing one period after the firing. *)
Lemma elapse_fire (x : Sys) (id : Z) (t : Timer Closure) (d : Z) :
  reachable x -> mounted x = true -> intervals (host x) = {[id := t]} ->
  (0 <= d)%Z -> (due t <= now (host x) + d)%Z ->
  exists x2 t2, run x [Elapse d; Fire id] = Some x2 /\ mounted x2 = true /\
    animationStep (app x2) = nextStep (animationStep (app x)) /\
    now (host x2) = (now (host x) + d)%Z /\
    intervals (host x2) = {[id := t2]} /\ due t2 = (now (host x2) + 2000)%Z.
Proof.
  intros R Hm Hi Hd0 Hd. pose proof (inv_of_reachable x R) as I.
  unfold inv, interval_ok, timers_ok in I. rewrite Hm in I.
  destruct I as [_ (fid & _ & Ht)].
  destruct (isPlaying (app x)) eqn:Ep; [| destruct Ht as [_ Hi']; rewrite Hi in Hi';
    by destruct (map_non_empty_singleton id t)].
  destruct Ht as (id' & t' & Hsl & Hi' & Hp & _).
  rewrite Hi in Hi'. apply map_singleton_inj in Hi' as [<- <-].
  set (x1 := mkSys (app x) (slots x) (elapse d (host x)) true).
  set (t2 := mkTimer (callback t) (period t) (now (host x1) + period t)).
  assert (Hf : fire id (host x1) = Some (callback t, with_intervals {[id := t2]} (host x1))).
  { unfold fire. cbn. rewrite Hi, lookup_singleton_eq, bool_decide_true by lia.
    by rewrite insert_singleton_eq. }
  exists (render_commit x1 (with_intervals {[id := t2]} (host x1)) [runClosure (callback t)]), t2.
  cbn [run]. unfold step at 1. rewrite Hm. cbn [negb]. rewrite bool_decide_true by lia.
  fold x1. cbn [run]. unfold step. replace (mounted x1) with true by reflexivity.
  cbn [negb]. rewrite Hf.
  unfold render_commit. rewrite (commit_same _ fid true _ _ _ Hsl) by
    (rewrite runClosure_tick; cbn; exact Ep).
  rewrite runClosure_tick. cbn. rewrite Hp. repeat split.
Qed.

(** A round of the ideal schedule: 2000 ms pass and interval [id] fires. *)
Definition periods (id : Z) (k : nat) : list Event :=
  concat (repeat [Elapse 2000; Fire id] k).

(** C5: the driver's cadence: from an interval due exactly one period
    ahead, k rounds of 2000 ms each fire it k times, advancing the step by
    k ticks, and leave it due one period ahead again. *)
Theorem playing_cadence (x : Sys) (id : Z) (t : Timer Closure) (k : nat) :
  reachable x -> mounted x = true -> intervals (host x) = {[id := t]} ->
  due t = (now (host x) + 2000)%Z ->
  exists x' t', run x (periods id k) = Some x' /\
    animationStep (app x') = Nat.iter k nextStep (animationStep (app x)) /\
    now (host x') = (now (host x) + 2000 * Z.of_nat k)%Z /\
    intervals (host x') = {[id := t']} /\ due t' = (now (host x') + 2000)%Z.
Proof.
  revert x t. induction k as [|k IH]; intros x t R Hm Hi Hd.
  - exists x, t. cbn. rewrite Z.add_0_r. auto.
  - destruct (elapse_fire x id t 2000 R Hm Hi ltac:(lia) ltac:(lia)) as (x2 & t2 & Hr & Hm2 & Hs2 & Hn2 & Hi2 & Hd2).
    destruct (IH x2 t2 (run_reachable _ _ _ R Hr) Hm2 Hi2 Hd2)
      as (x' & t' & Hr' & Hs' & Hn' & Hi' & Hd').
    exists x', t'. unfold periods. cbn [repeat concat]. rewrite run_app, Hr.
    split; [exact Hr' |]. rewrite Hs', Hs2, Nat.iter_succ_r. split; [done |].
    split; [lia | auto].
Qed.

Lemma playing_cadence_witness :
  reachable (mount initialHost) /\ mounted (mount initialHost) = true /\
  intervals (host (mount initialHost)) =
    {[1%Z := mkTimer (TickClosure initialState) 2000 2000]} /\
  due (mkTimer (TickClosure initialState) 2000 2000) = (now (host (mount initialHost)) + 2000)%Z /\
  exists x' t', run (mount initialHost) (periods 1 5) = Some x' /\
    animationStep (app x') = Nat.iter 5 nextStep (animationStep (app (mount initialHost))) /\
    now (host x') = (now (host (mount initialHost)) + 2000 * Z.of_nat 5)%Z /\
    intervals (host x') = {[1%Z := t']} /\ due t' = (now (host x') + 2000)%Z.
Proof.
  assert (R : reachable (mount initialHost)) by (apply reach_mount; split; reflexivity).
  assert (Hm : mounted (mount initialHost) = true) by reflexivity.
  assert (Hi : intervals (host (mount initialHost)) =
    {[1%Z := mkTimer (TickClosure initialState) 2000 2000]}) by reflexivity.
  assert (Hd : due (mkTimer (TickClosure initialState) 2000 2000) =
    (now (host (mount initialHost)) + 2000)%Z) by reflexivity.
  split; [exact R | split; [exact Hm | split; [exact Hi | split; [exact Hd |]]]].
  exact (playing_cadence _ 1 _ 5 R Hm Hi Hd).
Defined.

(** C7: ticks are at least one period apart: on every reachable state,
    after an interval has fired, no interval can fire again before 2000 ms
    have passed, since the page's only interval is rescheduled one period
    after each firing. *)
Theorem no_early_tick (x x1 x2 : Sys) (id id' d : Z) :
  reachable x -> step x (Fire id) = Some x1 -> (d < 2000)%Z ->
  step x1 (Elapse d) = Some x2 -> step x2 (Fire id') = None.
Proof.
  intros R Hs Hd. pose proof (inv_of_reachable x R) as I. unfold inv in I.
  revert Hs. unfold step at 1. destruct (mounted x) eqn:Hm; [| discriminate]. cbn [negb].
  destruct I as [_ (fid & _ & Ht)]. unfold interval_ok, timers_ok in Ht.
  destruct (fire id (host x)) as [[c h]|] eqn:Hf; [| discriminate]. intros [= <-].
  destruct (isPlaying (app x)) eqn:Ep;
    [| destruct Ht as [_ Hi]; rewrite fire_empty in Hf by done; discriminate].
  destruct Ht as (id0 & t & Hsl & Hi & Hp & _).
  apply (fire_singleton id0 id t) in Hf as (-> & -> & Hdue & ->); [| done].
  unfold render_commit. rewrite (commit_same _ fid true _ _ _ Hsl)
    by (rewrite runClosure_tick; cbn; exact Ep).
  unfold step. rewrite Hm. cbn [negb mounted]. case_bool_decide; [| discriminate].
  intros [= <-]. unfold step, fire. cbn. rewrite Hp.
  destruct (decide (id0 = id')) as [<- | Hne].
  - rewrite lookup_singleton_eq, bool_decide_false by (cbn; lia). done.
  - by rewrite lookup_singleton_ne.
Qed.

(** The page right after its first tick, and 1999 ms later. *)
Definition after_first_tick : Sys :=
  match step tick_due (Fire 1) with Some x => x | None => tick_due end.
Definition before_second_tick : Sys :=
  match step after_first_tick (Elapse 1999) with Some x => x | None => after_first_tick end.

Lemma no_early_tick_witness :
  reachable tick_due /\ step tick_due (Fire 1) = Some after_first_tick /\ (1999 < 2000)%Z /\
  step after_first_tick (Elapse 1999) = Some before_second_tick /\
  step before_second_tick (Fire 1) = None.
Proof.
  assert (R0 : reachable (mount initialHost)) by (apply reach_mount; split; reflexivity).
  assert (R : reachable tick_due) by (apply (reach_step _ (Elapse 2000) _ R0); reflexivity).
  assert (H1 : step tick_due (Fire 1) = Some after_first_tick) by (vm_compute; reflexivity).
  assert (H2 : (1999 < 2000)%Z) by lia.
  assert (H3 : step after_first_tick (Elapse 1999) = Some before_second_tick)
    by (vm_compute; reflexivity).
  split; [exact R | split; [exact H1 | split; [exact H2 | split; [exact H3 |]]]].
  exact (no_early_tick _ _ _ 1 1 1999 R H1 H2 H3).
Defined.

(** ** The event loop catching up with the clock *)

(** The browser's event loop brought to time [target]: it runs the timer
    due first, at its due time or at once if it is overdue, and repeats;
    when no timer is due by [target] any more it lets the rest of the time
    pass. [fuel] bounds the number of timer firings. *)
Fixpoint advance (fuel : nat) (x : Sys) (target : Z) : option Sys :=
  match fuel with
  | O => None
  | S f =>
      match next_due (host x) target with
      | Some (id, t) =>
          match run x [Elapse (Z.max 0 (due t - now (host x))); Fire id] with
          | Some x2 => advance f x2 target
          | None => None
          end
      | None => step x (Elapse (target - now (host x)))
      end
  end.

(** The loop's last round: with no timer due by [target], the rest of the
    time passes. *)
Lemma elapse_to (x : Sys) (target : Z) :
  reachable x -> mounted x = true -> (now (host x) <= target)%Z ->
  (forall id t, intervals (host x) !! id = Some t -> (target < due t)%Z) ->
  exists x', step x (Elapse (target - now (host x))) = Some x' /\ reachable x' /\
    mounted x' = true /\ now (host x') = target /\
    forall id t, intervals (host x') !! id = Some t -> (target < due t)%Z.
Proof.
  intros R Hm Hle Hd.
  assert (Hs : step x (Elapse (target - now (host x))) =
    Some (mkSys (app x) (slots x) (elapse (target - now (host x)) (host x)) true))
    by (unfold step; rewrite Hm; cbn; by rewrite bool_decide_true by lia).
  eexists. split; [exact Hs |]. split; [exact (reach_step _ _ _ R Hs) |].
  cbn. split_and!; [done | lia | exact Hd].
Qed.

(** The loop's measure: with [n] firings left, the target lies less than
    [n] periods after the next firing. *)
Lemma advance_measure (n : nat) : forall (x : Sys) (target : Z) (fuel : nat),
  reachable x -> mounted x = true -> (now (host x) <= target)%Z -> (n < fuel)%nat ->
  (forall id t, intervals (host x) !! id = Some t ->
     (target < Z.max (due t) (now (host x)) + 2000 * Z.of_nat n)%Z) ->
  exists x', advance fuel x target = Some x' /\ reachable x' /\ mounted x' = true /\
    now (host x') = target /\
    forall id t, intervals (host x') !! id = Some t -> (target < due t)%Z.
Proof.
  induction n as [|n IH]; intros x target fuel R Hm Hle Hf Hb;
    (destruct fuel as [|fuel]; [lia |]); cbn [advance].
  all: pose proof (inv_of_reachable x R) as I; unfold inv, interval_ok, timers_ok in I;
    rewrite Hm in I; destruct I as [_ (fid & _ & Ht)].
  all: destruct (isPlaying (app x));
    [destruct Ht as (id & t & _ & Hi & _) | destruct Ht as [_ Hi]].
  all: try (rewrite next_due_empty by exact Hi; apply elapse_to; [done.. |];
    intros id t; by rewrite Hi, lookup_empty).
  all: rewrite (next_due_singleton _ _ id t Hi); case_bool_decide as Hdue;
    [| apply elapse_to; [done.. |]; intros id' t'; rewrite Hi;
       intros [<- <-]%lookup_singleton_Some; lia].
  all: specialize (Hb id t); rewrite Hi, lookup_singleton_eq in Hb; specialize (Hb eq_refl).
  - lia.
  - destruct (elapse_fire x id t (Z.max 0 (due t - now (host x))) R Hm Hi ltac:(lia) ltac:(lia))
      as (x2 & t2 & Hr & Hm2 & _ & Hn2 & Hi2 & Hd2).
    rewrite Hr. apply IH; [exact (run_reachable _ _ _ R Hr) | exact Hm2 | lia | lia |].
    rewrite Hi2. intros id' t' [<- <-]%lookup_singleton_Some. lia.
Qed.

(** C6: the event loop terminates: from any reachable mounted state, and
    for any target time not in the past, [(target - now) / 2000 + 2] rounds
    of the loop suffice to bring the page to the target time, every timer
    due by then having run, and the page it reaches is reachable. *)
Theorem advance_terminates (x : Sys) (target : Z) (fuel : nat) :
  reachable x -> mounted x = true -> (now (host x) <= target)%Z ->
  (Z.to_nat ((target - now (host x)) / 2000) + 2 <= fuel)%nat ->
  exists x', advance fuel x target = Some x' /\ reachable x' /\ now (host x') = target /\
    forall id t, intervals (host x') !! id = Some t -> (target < due t)%Z.
Proof.
  intros R Hm Hle Hf.
  destruct (advance_measure (Z.to_nat ((target - now (host x)) / 2000) + 1) x target fuel
    R Hm Hle ltac:(lia)) as (x' & ? & ? & _ & ? & ?); [| eauto].
  intros id t _. rewrite Nat2Z.inj_add, Z2Nat.id by (apply Z.div_pos; lia).
  pose proof (Z.mod_pos_bound (target - now (host x)) 2000 ltac:(lia)).
  pose proof (Z_div_mod_eq_full (target - now (host x)) 2000). lia.
Qed.

Lemma advance_terminates_witness :
  reachable (mount initialHost) /\ mounted (mount initialHost) = true /\
  (now (host (mount initialHost)) <= 7000)%Z /\
  (Z.to_nat ((7000 - now (host (mount initialHost))) / 2000) + 2 <= 5)%nat /\
  exists x', advance 5 (mount initialHost) 7000 = Some x' /\ reachable x' /\
    now (host x') = 7000%Z /\
    forall id t, intervals (host x') !! id = Some t -> (7000 < due t)%Z.
Proof.
  assert (R : reachable (mount initialHost)) by (apply reach_mount; split; reflexivity).
  assert (Hm : mounted (mount initialHost) = true) by reflexivity.
  assert (Hle : (now (host (mount initialHost)) <= 7000)%Z) by (cbn; lia).
  assert (Hf : (Z.to_nat ((7000 - now (host (mount initialHost))) / 2000) + 2 <= 5)%nat)
    by (vm_compute; lia).
  split; [exact R | split; [exact Hm | split; [exact Hle | split; [exact Hf |]]]].
  exact (advance_terminates _ 7000 5 R Hm Hle Hf).
Defined.

(** ** Cleanups undo their effects *)

(** C9: each effect's cleanup undoes its body on the browser's tables: on
    a well-formed browser, running the interval effect's
    [clearInterval(interval)] right after the body restores the interval
    table, and the scroll effect's [removeEventListener] restores the
    listener list; an effect body that returns no cleanup (the interval
    effect while paused) changes nothing. *)
Theorem cleanup_undoes_effect (e : AppEffect) (s : AppState) (h : BrowserHost) :
  host_wf h ->
  match runEffect e s h with
  | (h1, Some c) =>
      intervals (runCleanup c h1) = intervals h /\ listeners (runCleanup c h1) = listeners h
  | (h1, None) => h1 = h
  end.
Proof.
  intros Hw. destruct e; cbn.
  - split; [unfold addEventListener; by destruct (has_listener _ _) |].
    exact (addEventListener_removeEventListener HandleScroll h Hw).
  - destruct (isPlaying s); cbn; [| done].
    split; [exact (setInterval_clearInterval (TickClosure s) 2000 h Hw) | done].
Qed.

Lemma initialHost_wf : host_wf initialHost.
Proof. split; cbn; [intros id t; by rewrite lookup_empty | intros fid l []]. Qed.

Lemma cleanup_undoes_effect_witness :
  host_wf initialHost /\
  match runEffect IntervalEffect initialState initialHost with
  | (h1, Some c) =>
      intervals (runCleanup c h1) = intervals initialHost /\
      listeners (runCleanup c h1) = listeners initialHost
  | (h1, None) => h1 = initialHost
  end.
Proof. split; [exact initialHost_wf | exact (cleanup_undoes_effect IntervalEffect initialState _ initialHost_wf)]. Defined.
