(* ===== verification/View.v ===== *)
(** The render tree of [App] ([src/src/App.jsx], lines 62-238): the four
    sections (hero, animation stage, features, details panel) as a tree of
    elements built from the state. An element keeps its tag, its class
    list (the DOM's tokens of its [className]), its style object, the
    button whose [onClick] it carries, and its children; text children
    keep the numbers they interpolate as numbers. *)

From Stdlib Require Import ZArith QArith List String Lia Bool.
From stdpp Require Import base gmap.
From S2P Require Import Prelude AppState Style Host Runtime.
Import ListNotations.
Import App.
Open Scope string_scope.

#[local] Set Warnings "-register-all".

Inductive Node :=
| El (tag : string) (classes : list string) (style : option (Style Q))
     (onClick : option Button) (children : list Node)
| Txt (s : string)
| Num (z : Z)
| Icon (name : string) (classes : list string) (size : option Z).

(** The two enumerated palettes: [isDarkMode ? dark : light]. *)
Definition themed {T} (dark : bool) (d l : T) : T := if dark then d else l.

(** ** Hero section (lines 65-95) *)

Definition heroSection (s : AppState) : Node :=
  let dk := isDarkMode s in
  El "section" ["relative"; "min-h-screen"; "flex"; "flex-col"; "items-center";
                "justify-center"; "overflow-hidden"] None None [
    El "div" ["absolute"; "inset-0"; "z-0"] None None [
      El "div" ["absolute"; "inset-0"; "bg-gradient-to-b"; "from-blue-500/20";
                "to-purple-500/20"] (Some (heroBackgroundStyle (scrollY s))) None [];
      El "div" ["absolute"; "inset-0";
                "bg-[radial-gradient(circle_at_50%_120%,rgba(120,119,198,0.3),rgba(0,0,0,0))]"]
        None None []];
    El "div" ["container"; "mx-auto"; "px-4"; "z-10"] None None [
      El "h1" ["text-6xl"; "font-bold"; "mb-6"; "text-center";
               themed dk "text-white" "text-gray-800"]
        (Some (heroTitleStyle (scrollY s))) None [Txt "Interactive Animations"];
      El "p" ["text-xl"; "mb-8"; "text-center"; "max-w-2xl"; "mx-auto";
              themed dk "text-gray-300" "text-gray-600"]
        (Some (heroTextStyle (scrollY s))) None
        [Txt "Explore the power of modern web animations with this interactive playground"];
      El "div" ["flex"; "justify-center"] None None [
        El "button" ["p-2"; "rounded-full"; "hover:bg-gray-700"; "transition-colors"]
          None (Some ThemeButton)
          [themed dk (Icon "Sun" ["text-white"] None) (Icon "Moon" ["text-gray-800"] None)]]];
    Icon "ChevronDown" ["absolute"; "bottom-8"; "animate-bounce";
                        themed dk "text-white" "text-gray-800"] (Some 32%Z)].

(** ** Animation section (lines 98-162) *)

Definition controlButtonBase : list string :=
  ["flex"; "items-center"; "gap-2"; "px-6"; "py-3"; "rounded-lg"].

Definition secondaryButtonClasses (dk : bool) : list string :=
  controlButtonBase
  ++ themed dk ["bg-gray-700"; "hover:bg-gray-600"] ["bg-gray-200"; "hover:bg-gray-300"]
  ++ [themed dk "text-white" "text-gray-800"; "font-medium"; "transition-colors"].

Definition controlPanel (s : AppState) : Node :=
  let dk := isDarkMode s in
  El "div" ["flex"; "gap-4"; "mb-12"] (Some (controlPanelStyle (scrollY s))) None [
    El "button" (controlButtonBase
                 ++ themed dk ["bg-blue-600"; "hover:bg-blue-700"] ["bg-blue-500"; "hover:bg-blue-600"]
                 ++ ["text-white"; "font-medium"; "transition-colors"])
      None (Some PlayButton)
      [if isPlaying s then Icon "Pause" [] (Some 20%Z) else Icon "Play" [] (Some 20%Z);
       Txt (if isPlaying s then "Pause" else "Play")];
    El "button" (secondaryButtonClasses dk) None (Some ResetButton)
      [Icon "RotateCcw" [] (Some 20%Z); Txt "Reset"];
    El "button" (secondaryButtonClasses dk) None (Some TrailsButton)
      [Txt (if showTrails s then "Hide" else "Show"); Txt " Trails"]].

Definition trailNode (t : Trail Q) : Node :=
  El "div" (trailClass t) (Some (trailStyle t)) None [].

(** The moving shape (lines 146-158). *)
Definition shapeNode (step : Z) : Node :=
  El "div" (["relative"; "w-20"; "h-20"; "bg-yellow-500"; "rounded-lg"; "transition-all";
             "duration-[2000ms]"; "ease-in-out"; "shadow-lg"] ++ classList (getAnimationClass step))
    (Some {| transform := None; opacity := None;
             styleBorderRadius := Some (borderRadius step); transitionDelay := None |})
    None [].

(** [{renderTrails()}]: [null] renders nothing. *)
Definition trailNodes (s : AppState) : list Node :=
  match renderTrails (showTrails s) (animationStep s) with
  | Some ts => map trailNode ts
  | None => []
  end.

Definition animationSection (s : AppState) : Node :=
  El "section" ["min-h-screen"; "py-20"; "relative"] None None [
    El "div" ["container"; "mx-auto"; "px-4"] None None [
      El "div" ["max-w-4xl"; "mx-auto"] None None [
        controlPanel s;
        El "div" ["relative"; "h-[600px]"; "rounded-xl"; "overflow-hidden"; "border";
                  "border-gray-700"; "bg-grid-pattern"] (Some (stageStyle (scrollY s))) None
          (trailNodes s ++ [shapeNode (animationStep s)])]]].

(** ** Features section (lines 165-209) *)

Record Feature := mkFeature { icon : string; title : string; description : string }.

Definition features : list Feature := [
  mkFeature "Box" "Smooth Animations"
    "Fluid and responsive animations that bring your interface to life";
  mkFeature "Zap" "Interactive Controls"
    "Full control over animation playback and visual effects";
  mkFeature "Target" "Visual Trails"
    "Beautiful motion trails that enhance the animation experience"].

Definition featureCard (s : AppState) (f : Feature) : Node :=
  let dk := isDarkMode s in
  El "div" (["p-6"; "rounded-lg"; "text-center"]
            ++ themed dk ["bg-gray-800"; "text-white"] ["bg-white"; "text-gray-800"]
            ++ ["transform"; "transition-all"; "duration-500"])
    (Some (featureStyle (scrollY s))) None [
    Icon (icon f) ["mb-4"] (Some 32%Z);
    El "h3" ["text-xl"; "font-semibold"; "mb-2"] None None [Txt (title f)];
    El "p" [themed dk "text-gray-300" "text-gray-600"] None None [Txt (description f)]].

Definition featuresSection (s : AppState) : Node :=
  El "section" ["min-h-screen"; "py-20"; "relative"] None None [
    El "div" ["container"; "mx-auto"; "px-4"] None None [
      El "h2" ["text-4xl"; "font-bold"; "mb-16"; "text-center";
               themed (isDarkMode s) "text-white" "text-gray-800"] None None [Txt "Key Features"];
      El "div" ["grid"; "md:grid-cols-3"; "gap-8"; "max-w-4xl"; "mx-auto"] None None
        (map (featureCard s) features)]].

(** ** Animation details section (lines 212-236) *)

Definition infoSection (s : AppState) : Node :=
  let dk := isDarkMode s in
  let col := [themed dk "text-gray-300" "text-gray-600"] in
  El "section" ["min-h-screen"; "py-20"; "relative"] None None [
    El "div" ["container"; "mx-auto"; "px-4"] None None [
      El "div" ["max-w-4xl"; "mx-auto"; "p-8"; "rounded-lg"; themed dk "bg-gray-800" "bg-white";
                "shadow-lg"] (Some (infoStyle (scrollY s))) None [
        El "h2" ["text-2xl"; "font-semibold"; "mb-6"; themed dk "text-white" "text-gray-800"]
          None None [Txt "Animation Details"];
        El "div" ["grid"; "md:grid-cols-2"; "gap-6"] None None [
          El "div" col None None [
            El "p" ["mb-2"] None None [Txt "Current Step: "; Num (animationStep s + 1); Txt "/4"];
            El "p" ["mb-2"] None None [Txt "Status: "; Txt (if isPlaying s then "Playing" else "Paused")];
            El "p" ["mb-2"] None None [Txt "Trails: "; Txt (if showTrails s then "Enabled" else "Disabled")]];
          El "div" col None None [
            El "p" ["mb-2"] None None [Txt "Theme: "; Txt (if dk then "Dark" else "Light")];
            El "p" ["mb-2"] None None [Txt "Transition Duration: 2000ms"];
            El "p" ["mb-2"] None None [Txt "Animation Type: Continuous"]]]]]].

(** The component's return value (lines 62-238). *)
Definition render (s : AppState) : Node :=
  El "div" ["transition-colors"; "duration-500"; themed (isDarkMode s) "bg-gray-900" "bg-gray-100"]
    None None [heroSection s; animationSection s; featuresSection s; infoSection s].

(** ** Reading the tree *)

(** The elements and icons carrying class [c]. *)
Fixpoint count_class (c : string) (n : Node) : nat :=
  match n with
  | El _ cls _ _ ch =>
      (if existsb (String.eqb c) cls then 1 else 0) + list_sum (map (count_class c) ch)
  | Icon _ cls _ => if existsb (String.eqb c) cls then 1 else 0
  | _ => 0
  end.

(** The click handlers, in document order. *)
Fixpoint handlers (n : Node) : list Button :=
  match n with
  | El _ _ _ h ch =>
      (match h with Some b => [b] | None => [] end ++ List.concat (map handlers ch))%list
  | _ => []
  end.

Inductive TextPart := TStr (s : string) | TNum (z : Z).

(** The text content, in document order. *)
Fixpoint texts (n : Node) : list TextPart :=
  match n with
  | El _ _ _ _ ch => List.concat (map texts ch)
  | Txt s => [TStr s]
  | Num z => [TNum z]
  | Icon _ _ _ => []
  end.

Lemma getAnimationClass_cases (n : Z) :
  In (getAnimationClass n)
    ["translate-x-0 translate-y-0 scale-100"; "translate-x-[250px] rotate-[360deg]";
     "translate-x-[250px] translate-y-[200px] scale-150 rotate-[720deg]";
     "translate-x-[400px] translate-y-[200px] scale-200 rotate-[1080deg]"; ""].
Proof.
  destruct n as [|p|p]; cbn; [tauto | | tauto].
  destruct p as [[]|[]|]; cbn; tauto.
Qed.

Ltac unfold_view :=
  unfold render, heroSection, animationSection, controlPanel, secondaryButtonClasses,
    controlButtonBase, trailNodes, renderTrails, trailAt, trailClassList, shapeNode,
    featuresSection, featureCard, features, infoSection, themed.

(** Case on the pose class of the step, so that the tree computes. *)
Ltac pose_cases s :=
  let E := fresh "E" in
  destruct (getAnimationClass_cases (animationStep s)) as
    [E | [E | [E | [E | [E | []]]]]];
  rewrite <- E.

(** C31: the page shows five trail elements when trails are shown and none
    when hidden, and always exactly one shape. *)
Theorem render_trail_count (s : AppState) :
  count_class "bg-yellow-500/30" (render s) = (if showTrails s then 5 else 0)%nat /\
  count_class "bg-yellow-500" (render s) = 1%nat.
Proof.
  unfold_view.
  destruct (isDarkMode s), (showTrails s), (isPlaying s); pose_cases s; vm_compute;
    split; reflexivity.
Qed.

(** C32: in every state the page has exactly four clickable controls, in
    document order the theme toggle, play/pause, reset and the trails
    toggle, each carrying its own handler. *)
Theorem render_handlers (s : AppState) :
  handlers (render s) = [ThemeButton; PlayButton; ResetButton; TrailsButton].
Proof.
  unfold_view. destruct (isDarkMode s), (showTrails s), (isPlaying s); reflexivity.
Qed.

(** C14: on every reachable state of the mounted page, the details panel
    shows the step as a number from 1 to 4, and it says "Playing" exactly
    when an interval is registered with the browser. *)
Theorem displayed_status_consistent (x : Sys) :
  reachable x -> mounted x = true ->
  exists k status,
    texts (infoSection (app x)) =
      [TStr "Animation Details"; TStr "Current Step: "; TNum k; TStr "/4";
       TStr "Status: "; TStr status;
       TStr "Trails: "; TStr (if showTrails (app x) then "Enabled" else "Disabled");
       TStr "Theme: "; TStr (if isDarkMode (app x) then "Dark" else "Light");
       TStr "Transition Duration: 2000ms"; TStr "Animation Type: Continuous"] /\
    (1 <= k <= 4)%Z /\ (status = "Playing" <-> intervals (host x) <> ∅).
Proof.
  intros R Hm. pose proof (inv_of_reachable x R) as I.
  unfold inv, interval_ok, timers_ok in I. rewrite Hm in I.
  destruct I as [Hok (fid & _ & Ht)]. apply step_ok_spec in Hok.
  exists (animationStep (app x) + 1)%Z, (if isPlaying (app x) then "Playing" else "Paused").
  split; [reflexivity | split; [lia |]].
  destruct (isPlaying (app x)).
  - destruct Ht as (id & t & _ & -> & _). split; [intros _ | done].
    apply map_non_empty_singleton.
  - destruct Ht as [_ ->]. split; [discriminate | by intros []].
Qed.

Lemma displayed_status_consistent_witness :
  reachable (mount initialHost) /\ mounted (mount initialHost) = true /\
  exists k status,
    texts (infoSection (app (mount initialHost))) =
      [TStr "Animation Details"; TStr "Current Step: "; TNum k; TStr "/4";
       TStr "Status: "; TStr status;
       TStr "Trails: "; TStr (if showTrails (app (mount initialHost)) then "Enabled" else "Disabled");
       TStr "Theme: "; TStr (if isDarkMode (app (mount initialHost)) then "Dark" else "Light");
       TStr "Transition Duration: 2000ms"; TStr "Animation Type: Continuous"] /\
    (1 <= k <= 4)%Z /\ (status = "Playing" <-> intervals (host (mount initialHost)) <> ∅).
Proof.
  assert (R : reachable (mount initialHost)) by (apply reach_mount; split; reflexivity).
  assert (Hm : mounted (mount initialHost) = true) by reflexivity.
  split; [exact R | split; [exact Hm | exact (displayed_status_consistent _ R Hm)]].
Defined.

(** The classes that only one theme uses. *)
Definition darkPalette : list string :=
  ["bg-gray-900"; "text-gray-300"; "bg-blue-600"; "hover:bg-blue-700"; "bg-gray-700";
   "hover:bg-gray-600"; "bg-gray-800"].
Definition lightPalette : list string :=
  ["bg-gray-100"; "text-gray-800"; "text-gray-600"; "bg-blue-500"; "hover:bg-blue-600";
   "bg-gray-200"; "hover:bg-gray-300"; "bg-white"].

Lemma Forall_forallb_count (P : nat -> bool) (n : Node) (l : list string) :
  forallb (fun c => P (count_class c n)) l = true -> Forall (fun c => P (count_class c n) = true) l.
Proof. intros H. apply List.Forall_forall. intros c Hc. exact (proj1 (forallb_forall _ l) H c Hc). Qed.

(** C29: the theme switches between two fixed palettes: every class of the
    active theme's palette is used on the page, and none of the other's. *)
Theorem theme_palette (s : AppState) :
  Forall (fun c => (0 <? count_class c (render s))%nat = true)
    (if isDarkMode s then darkPalette else lightPalette) /\
  Forall (fun c => (count_class c (render s) =? 0)%nat = true)
    (if isDarkMode s then lightPalette else darkPalette).
Proof.
  split; [apply (Forall_forallb_count (fun k => 0 <? k)%nat) |
          apply (Forall_forallb_count (fun k => k =? 0)%nat)]; unfold_view;
    destruct (isDarkMode s), (showTrails s), (isPlaying s); pose_cases s; vm_compute; reflexivity.
Qed.

(** ** What the theme changes *)

(** The classes a themed position can hold. *)
Definition themeClasses : list string := "text-white" :: darkPalette ++ lightPalette.

Definition is_theme_class (c : string) : bool := existsb (String.eqb c) themeClasses.

(** The page with what the theme may change erased: the classes of
    [themeClasses], the theme icon's name and the theme label. *)
Fixpoint skeleton (n : Node) : Node :=
  match n with
  | El tag cls st h ch =>
      El tag (List.filter (fun c => negb (is_theme_class c)) cls) st h (map skeleton ch)
  | Txt t => Txt (if existsb (String.eqb t) ["Dark"; "Light"] then "" else t)
  | Num z => Num z
  | Icon nm cls sz =>
      Icon (if existsb (String.eqb nm) ["Sun"; "Moon"] then "" else nm)
        (List.filter (fun c => negb (is_theme_class c)) cls) sz
  end.

(** C30: clicking the theme button changes the page only in its palette:
    erasing the themed classes, the sun/moon icon and the Dark/Light label,
    the page after the click is the page before it, with every style
    object, text, number, handler and element in place. *)
Theorem theme_click_only_palette (s : AppState) :
  skeleton (render (click ThemeButton s)) = skeleton (render s).
Proof.
  assert (E : click ThemeButton s =
    mkAppState (isPlaying s) (negb (isDarkMode s)) (animationStep s) (showTrails s) (scrollY s))
    by (destruct s; reflexivity).
  rewrite E. unfold_view. cbn [isPlaying isDarkMode animationStep showTrails scrollY].
  destruct (isDarkMode s); vm_compute; reflexivity.
Qed.
