(* ===== verification/Transitions.v ===== *)
(** The CSS transitions of the moving shape and its five trails
    ([src/src/App.jsx], lines 34-47 and 146-158): each element carries
    [transition-all duration-[2000ms] ease-in-out] and the pose classes of
    [getAnimationClass]; the trails add [transitionDelay: index * 100 ms].
    When a tick changes the step, the browser retargets every element's
    transform transition from the value it has reached. This file gives the
    meaning of the Tailwind classes involved (platform and library
    behaviour, not code of the repository) and the CSS Transitions rules for
    starting and retargeting a transition, with the timing function left
    as a parameter that has the laws of [ease-in-out]. *)

From Stdlib Require Import ZArith QArith Qround Lqa Lia List String Bool Ascii Morphisms.
From S2P Require Import Prelude AppState Style Host Runtime View.
Import ListNotations.
Import App.

(** ** What the classes set *)

(** The transform of an element: Tailwind's [--tw-translate-x],
    [--tw-translate-y] (px), [--tw-rotate] (deg) and [--tw-scale-x/y]. *)
Record Pose := mkPose { tx : Q; ty : Q; rot : Q; sc : Q }.

(** The variables' initial values. *)
Definition defaultPose : Pose := mkPose 0 0 0 1.

Definition set_tx (v : Q) (p : Pose) : Pose := mkPose v (ty p) (rot p) (sc p).
Definition set_ty (v : Q) (p : Pose) : Pose := mkPose (tx p) v (rot p) (sc p).
Definition set_rot (v : Q) (p : Pose) : Pose := mkPose (tx p) (ty p) v (sc p).
Definition set_sc (v : Q) (p : Pose) : Pose := mkPose (tx p) (ty p) (rot p) v.

(** The transform utilities of [getAnimationClass]'s four poses. *)
Definition twTransform : list (string * (Pose -> Pose)) :=
  [("translate-x-0", set_tx 0); ("translate-y-0", set_ty 0); ("scale-100", set_sc 1);
   ("translate-x-[250px]", set_tx 250); ("rotate-[360deg]", set_rot 360);
   ("translate-y-[200px]", set_ty 200); ("scale-150", set_sc (3 # 2));
   ("rotate-[720deg]", set_rot 720); ("translate-x-[400px]", set_tx 400);
   ("scale-200", set_sc 2); ("rotate-[1080deg]", set_rot 1080)].

Definition applyToken (p : Pose) (tok : string) : Pose :=
  match find (fun u => String.eqb (fst u) tok) twTransform with
  | Some (_, f) => f p
  | None => p
  end.

(** The transform a class list gives; other utilities leave it alone. *)
Definition poseOfClasses (cls : list string) : Pose := fold_left applyToken cls defaultPose.

(** The digits of a duration utility, as a number. *)
Fixpoint digits_aux (s : string) (acc : Z) : option Z :=
  match s with
  | EmptyString => Some acc
  | String c s' =>
      let n := Z.of_nat (nat_of_ascii c) in
      if (48 <=? n)%Z && (n <=? 57)%Z then digits_aux s' (acc * 10 + (n - 48))%Z else None
  end.

Definition digitsZ (s : string) : option Z :=
  match s with EmptyString => None | _ => digits_aux s 0 end.

(** [duration-[<n>ms]] and [duration-<n>] set the transition's duration. *)
Definition durationToken (tok : string) : option Z :=
  if String.prefix "duration-[" tok then
    let body := substring 10 (String.length tok - 10) tok in
    let k := (String.length body - 3)%nat in
    if String.eqb (substring k 3 body) "ms]" then digitsZ (substring 0 k body) else None
  else if String.prefix "duration-" tok then digitsZ (substring 9 (String.length tok - 9) tok)
  else None.

(** The duration in ms: the last duration utility, else [transition-all]'s
    default of 150 ms, else CSS's initial 0 s. *)
Definition durationOf (cls : list string) : Z :=
  fold_left (fun acc tok => match durationToken tok with Some n => n | None => acc end) cls
    (if existsb (String.eqb "transition-all") cls then 150 else 0)%Z.

(** [transition-delay] from a style object; CSS's initial value is 0 s. *)
Definition delayOf (st : Style Q) : Q :=
  match transitionDelay st with Some d => d | None => 0 end.

(** ** The page's animated elements *)

Inductive Elem := ShapeEl | TrailEl (k : Z).

(** The elements that exist while trails are shown. *)
Definition page_elem (e : Elem) : Prop :=
  e = ShapeEl \/ exists k, e = TrailEl k /\ (0 <= k < 5)%Z.

Definition elemClasses (n : Z) (e : Elem) : list string :=
  match e with
  | ShapeEl => match shapeNode n with El _ cls _ _ _ => cls | _ => [] end
  | TrailEl k => trailClass (trailAt (A:=Q) n k)
  end.

Definition elemDelay (n : Z) (e : Elem) : Q :=
  match e with
  | ShapeEl => match shapeNode n with El _ _ (Some st) _ _ => delayOf st | _ => 0 end
  | TrailEl k => delayOf (trailStyle (trailAt (A:=Q) n k))
  end.

Definition elemPose (n : Z) (e : Elem) : Pose := poseOfClasses (elemClasses n e).
Definition elemDuration (n : Z) (e : Elem) : Z := durationOf (elemClasses n e).

(** The interval's period, the delay [runEffect] passes to [setInterval]. *)
Definition tickPeriod : Z := 2000.

(** ** CSS transitions *)

(** Pose equality: equality of the four numbers. *)
Definition pose_eqb (a b : Pose) : bool :=
  Qeq_bool (tx a) (tx b) && Qeq_bool (ty a) (ty b) && Qeq_bool (rot a) (rot b) &&
  Qeq_bool (sc a) (sc b).

(** A transform transition: from [rFrom] to [rTo], begun at [rStart] ms;
    an element at rest on [p] is [mkRunning p p s]. *)
Record Running := mkRunning { rFrom : Pose; rTo : Pose; rStart : Z }.

(** The transition's input progress at time [t]: 0 during the delay, then
    linear over the duration, then 1; a zero duration jumps at the end of
    the delay. *)
Definition progress (dur : Z) (delay : Q) (r : Running) (t : Z) : Q :=
  let x := inject_Z (t - rStart r) - delay in
  if (dur <=? 0)%Z then (if Qle_bool 0 x then 1 else 0)
  else Math_max 0 (Math_min 1 (x / inject_Z dur)).

Definition lerp (a b e : Q) : Q := a + e * (b - a).

(** Transform lists with the same functions interpolate number by number. *)
Definition poseLerp (a b : Pose) (e : Q) : Pose :=
  mkPose (lerp (tx a) (tx b) e) (lerp (ty a) (ty b) e) (lerp (rot a) (rot b) e)
    (lerp (sc a) (sc b) e).

Section Transition.

(** The timing function, [ease-in-out]: [cubic-bezier(0.4, 0, 0.2, 1)]. *)
Variable ease : Q -> Q.

(** The value the element shows at time [t]. *)
Definition value (dur : Z) (delay : Q) (r : Running) (t : Z) : Pose :=
  poseLerp (rFrom r) (rTo r) (ease (progress dur delay r t)).

(** The computed transform changes to [v] at time [t]: a transition that
    already ends at [v] goes on; otherwise a new one starts from the value
    reached, with the after-change duration and delay. A change back to
    the start value of a transition still running is CSS's reversing case
    (a shortened duration), which is not modelled: [None]. *)
Definition retarget (dur : Z) (delay : Q) (r : Running) (t : Z) (v : Pose) : option Running :=
  if pose_eqb v (rTo r) then Some r
  else if negb (Qle_bool 1 (progress dur delay r t)) && pose_eqb v (rFrom r) then None
  else Some (mkRunning (value dur delay r t) v t).

(** Element [e] along the page's ideal schedule: a tick every
    [tickPeriod] ms, each advancing the step by [nextStep] and retargeting
    the element to the new pose with the new classes' duration and
    delay. *)
Fixpoint beat (e : Elem) (r : Running) (t : Z) (n : Z) (k : nat) : option Running :=
  match k with
  | O => Some r
  | S k' =>
      let t' := (t + tickPeriod)%Z in
      let n' := nextStep n in
      match retarget (elemDuration n' e) (elemDelay n' e) r t' (elemPose n' e) with
      | Some r' => beat e r' t' n' k'
      | None => None
      end
  end.

End Transition.

(** ** The schedule's period is the interval's *)

(** On a playing render the interval effect calls [setInterval] with
    [tickPeriod] as its delay and returns the matching [clearInterval]. *)
Lemma runEffect_tickPeriod (s : AppState) (h : BrowserHost) :
  isPlaying s = true ->
  runEffect IntervalEffect s h =
    (fst (setInterval (TickClosure s) tickPeriod h),
     Some (ClearInterval (snd (setInterval (TickClosure s) tickPeriod h)))).
Proof. intros Hp. unfold runEffect. rewrite Hp. reflexivity. Qed.

(** ** The elements' durations, delays and poses *)

(** Case on the pose class of the step, so that class lists compute. *)
Ltac pose_class_cases n :=
  let E := fresh "E" in
  destruct (getAnimationClass_cases n) as [E | [E | [E | [E | [E | []]]]]].

(** Every animated element's transition lasts 2000 ms, whatever the step. *)
Lemma elemDuration_2000 (n : Z) (e : Elem) : elemDuration n e = 2000%Z.
Proof.
  unfold elemDuration, elemClasses. destruct e; cbn [trailClass trailAt shapeNode];
    unfold trailClassList; pose_class_cases n; rewrite <- E; vm_compute; reflexivity.
Qed.

(** The shape has no delay; trail [k] is delayed by [100 k] ms. *)
Lemma elemDelay_shape (n : Z) : elemDelay n ShapeEl = 0.
Proof. reflexivity. Qed.

Lemma elemDelay_trail (n k : Z) : elemDelay n (TrailEl k) == inject_Z (100 * k).
Proof. cbn. rewrite inject_Z_mult. apply Qmult_comm. Qed.

Lemma elemDelay_range (n : Z) (e : Elem) :
  page_elem e -> 0 <= elemDelay n e /\ elemDelay n e <= 400.
Proof.
  intros [-> | (k & -> & Hk)]; [rewrite elemDelay_shape; lra |].
  rewrite elemDelay_trail.
  split; [change 0 with (inject_Z 0) | change 400 with (inject_Z 400)]; rewrite <- Zle_Qle; lia.
Qed.

(** The four poses differ from each other. *)
Lemma elemPose_next (n : Z) (e : Elem) :
  (0 <= n < 4)%Z -> pose_eqb (elemPose (nextStep n) e) (elemPose n e) = false.
Proof.
  intros Hn. assert (n = 0 \/ n = 1 \/ n = 2 \/ n = 3)%Z as C by lia.
  destruct e; destruct C as [-> | [-> | [-> | ->]]]; vm_compute; reflexivity.
Qed.

Lemma elemPose_prev (n : Z) (e : Elem) :
  (0 <= n < 4)%Z -> pose_eqb (elemPose (nextStep (nextStep n)) e) (elemPose n e) = false.
Proof.
  intros Hn. assert (n = 0 \/ n = 1 \/ n = 2 \/ n = 3)%Z as C by lia.
  destruct e; destruct C as [-> | [-> | [-> | ->]]]; vm_compute; reflexivity.
Qed.

(** ** Interpolation *)

Lemma pose_eqb_spec (a b : Pose) :
  pose_eqb a b = true <-> tx a == tx b /\ ty a == ty b /\ rot a == rot b /\ sc a == sc b.
Proof. unfold pose_eqb. rewrite !andb_true_iff, !Qeq_bool_iff. tauto. Qed.

Lemma pose_eqb_refl (a : Pose) : pose_eqb a a = true.
Proof. apply pose_eqb_spec. repeat split; reflexivity. Qed.

Lemma lerp_at_target (a b e : Q) : ~ a == b -> (lerp a b e == b <-> e == 1).
Proof.
  intros Hab. unfold lerp. split; intros H.
  - assert (Hm : (e - 1) * (b - a) == 0).
    { transitivity (a + e * (b - a) - b); [ring |]. rewrite H. ring. }
    apply Qmult_integral in Hm as [Hm | Hm]; [lra | exfalso; apply Hab; lra].
  - rewrite H. ring.
Qed.

(** A transition's value is its end value exactly when the eased progress
    is 1, unless it starts there. *)
Lemma poseLerp_at_target (a b : Pose) (e : Q) :
  pose_eqb a b = false -> (pose_eqb (poseLerp a b e) b = true <-> e == 1).
Proof.
  intros Hab. rewrite pose_eqb_spec. cbn [tx ty rot sc poseLerp].
  assert (Hn : ~ (tx a == tx b /\ ty a == ty b /\ rot a == rot b /\ sc a == sc b))
    by (rewrite <- pose_eqb_spec; congruence).
  split.
  - intros (H1 & H2 & H3 & H4).
    destruct (Qeq_dec (tx a) (tx b)) as [?|Hx]; [| exact (proj1 (lerp_at_target _ _ _ Hx) H1)].
    destruct (Qeq_dec (ty a) (ty b)) as [?|Hy]; [| exact (proj1 (lerp_at_target _ _ _ Hy) H2)].
    destruct (Qeq_dec (rot a) (rot b)) as [?|Hr]; [| exact (proj1 (lerp_at_target _ _ _ Hr) H3)].
    destruct (Qeq_dec (sc a) (sc b)) as [?|Hs]; [| exact (proj1 (lerp_at_target _ _ _ Hs) H4)].
    exfalso. tauto.
  - intros He. unfold lerp. rewrite He. repeat split; ring.
Qed.

Lemma poseLerp_same (a : Pose) (e : Q) : pose_eqb (poseLerp a a e) a = true.
Proof. apply pose_eqb_spec. unfold poseLerp, lerp; cbn. repeat split; ring. Qed.

Lemma poseLerp_one (a b : Pose) (e : Q) : e == 1 -> pose_eqb (poseLerp a b e) b = true.
Proof. intros He. apply pose_eqb_spec. unfold poseLerp, lerp; cbn. rewrite He. repeat split; ring. Qed.

(** ** When an element reaches its pose *)

Section Arrival.

(** What the theorems use of the timing function: it maps 1 to 1, stays
    below 1 before the end, and respects equality of rationals, as
    [cubic-bezier(0.4, 0, 0.2, 1)] does. *)
Variable ease : Q -> Q.
Hypothesis ease_proper : Proper (Qeq ==> Qeq) ease.
Hypothesis ease_1 : ease 1 == 1.
Hypothesis ease_lt_1 : forall p, 0 <= p -> p < 1 -> ease p < 1.

Lemma ease_eq_1 (p : Q) : 0 <= p <= 1 -> (ease p == 1 <-> p == 1).
Proof.
  intros Hp. split; intros H; [| rewrite H; exact ease_1].
  destruct (Qeq_dec p 1) as [? | Hne]; [assumption |].
  exfalso. assert (ease p < 1) by (apply ease_lt_1; lra). lra.
Qed.

(** The progress of a 2000 ms transition lies in [0, 1] and is 1 exactly
    from 2000 ms after the end of the delay. *)
Lemma progress_range (d : Q) (r : Running) (t : Z) : 0 <= progress 2000 d r t <= 1.
Proof. unfold progress. cbn -[Math_max Math_min]. js_lra. Qed.

Lemma progress_eq_1 (d : Q) (r : Running) (t : Z) :
  progress 2000 d r t == 1 <-> inject_Z (rStart r + 2000) + d <= inject_Z t.
Proof.
  unfold progress. cbn -[Math_max Math_min inject_Z].
  unfold Z.sub. rewrite !inject_Z_plus, inject_Z_opp. split; intros; js_lra.
Qed.

(** A transition that does not start at its end value shows the end value
    exactly from its duration plus its delay on. *)
Lemma value_rest_iff (d : Q) (r : Running) (t : Z) :
  pose_eqb (rFrom r) (rTo r) = false ->
  (pose_eqb (value ease 2000 d r t) (rTo r) = true <->
     inject_Z (rStart r + 2000) + d <= inject_Z t).
Proof.
  intros Hft. unfold value. rewrite poseLerp_at_target by exact Hft.
  rewrite ease_eq_1 by apply progress_range. apply progress_eq_1.
Qed.

Lemma value_rest (d : Q) (r : Running) (t : Z) :
  inject_Z (rStart r + 2000) + d <= inject_Z t -> pose_eqb (value ease 2000 d r t) (rTo r) = true.
Proof.
  intros Ht. unfold value. apply poseLerp_one.
  rewrite ease_eq_1 by apply progress_range. now apply progress_eq_1.
Qed.

Lemma elem_rest_iff (n : Z) (e : Elem) (r : Running) (t : Z) :
  pose_eqb (rFrom r) (rTo r) = false ->
  (pose_eqb (value ease (elemDuration n e) (elemDelay n e) r t) (rTo r) = true <->
     inject_Z (rStart r + 2000) + elemDelay n e <= inject_Z t).
Proof. intros Hft. rewrite elemDuration_2000. exact (value_rest_iff _ _ _ Hft). Qed.

(** C19: the page's elements come to rest on a new pose exactly 2000 ms
    plus their transition delay after the change: the shape after 2000 ms,
    trail [k] after [2000 + 100 k] ms, so all within 2400 ms. *)
Theorem settle_time (n : Z) (e : Elem) (r : Running) (t : Z) :
  page_elem e -> pose_eqb (rFrom r) (rTo r) = false ->
  (pose_eqb (value ease (elemDuration n e) (elemDelay n e) r t) (rTo r) = true <->
     inject_Z (rStart r + 2000) + elemDelay n e <= inject_Z t) /\
  (elemDelay n e <= 400).
Proof.
  intros He Hft. split; [exact (elem_rest_iff n e r t Hft) | apply elemDelay_range, He].
Qed.

(** C18: when the next tick comes, [tickPeriod] ms after a pose change,
    only the shape and the first trail have reached the new pose: the
    delayed trails 1 to 4 are still on their way, and are retargeted from
    there. *)
Theorem arrival_on_beat (n : Z) (e : Elem) (r : Running) :
  page_elem e -> pose_eqb (rFrom r) (rTo r) = false ->
  (pose_eqb (value ease (elemDuration n e) (elemDelay n e) r (rStart r + tickPeriod)) (rTo r) = true
   <-> e = ShapeEl \/ e = TrailEl 0).
Proof.
  intros He Hft. rewrite elem_rest_iff by exact Hft. unfold tickPeriod.
  destruct He as [-> | (k & -> & Hk)].
  - rewrite elemDelay_shape. split; [auto | intros _; lra].
  - rewrite elemDelay_trail, <- inject_Z_plus, <- Zle_Qle.
    split; [intros H; right; f_equal; lia | intros [H | H]; [discriminate | injection H; lia]].
Qed.

(** The shape's next leg along the schedule: it starts from the pose it
    was heading to. *)
Lemma beat_shape_step (r : Running) (t n : Z) (k : nat) :
  (0 <= n < 4)%Z -> rTo r = elemPose n ShapeEl -> rStart r = t ->
  beat ease ShapeEl r t n (S k) =
    beat ease ShapeEl (mkRunning (value ease 2000 0 r (t + tickPeriod)) (elemPose (nextStep n) ShapeEl)
      (t + tickPeriod)) (t + tickPeriod) (nextStep n) k /\
  pose_eqb (value ease 2000 0 r (t + tickPeriod)) (elemPose n ShapeEl) = true.
Proof.
  intros Hn Hto Hs. assert (Hv : pose_eqb (value ease 2000 0 r (t + tickPeriod)) (rTo r) = true)
    by (apply value_rest; rewrite <- Hs; unfold tickPeriod; lra).
  rewrite Hto in Hv. split; [| exact Hv].
  cbn [beat]. unfold retarget. rewrite elemDuration_2000, elemDelay_shape, Hto, elemPose_next by exact Hn.
  assert (Hp : progress 2000 0 r (t + tickPeriod) == 1)
    by (apply progress_eq_1; rewrite <- Hs; unfold tickPeriod; lra).
  replace (Qle_bool 1 (progress 2000 0 r (t + tickPeriod))) with true
    by (symmetry; apply Qle_bool_iff; rewrite Hp; lra).
  reflexivity.
Qed.

(** C17: the period of the interval equals the shape's transition
    duration, so the shape is on the beat: along the schedule of ticks,
    from any transition towards the current pose, the shape leaves for
    every new pose exactly from the pose before it, and its transition
    always heads for the pose of the current step. *)
Theorem shape_on_beat (k : nat) : forall (r : Running) (t n : Z),
  (0 <= n < 4)%Z -> rTo r = elemPose n ShapeEl -> rStart r = t ->
  exists r', beat ease ShapeEl r t n (S k) = Some r' /\
    rTo r' = elemPose (Nat.iter (S k) nextStep n) ShapeEl /\
    rStart r' = (t + tickPeriod * Z.of_nat (S k))%Z /\
    pose_eqb (rFrom r') (elemPose (Nat.iter k nextStep n) ShapeEl) = true.
Proof.
  induction k as [|k IH]; intros r t n Hn Hto Hs.
  - destruct (beat_shape_step r t n 0 Hn Hto Hs) as [-> Hv]. eexists. split; [reflexivity |]. split; [reflexivity |].
    split; [cbn; unfold tickPeriod; lia | exact Hv].
  - destruct (beat_shape_step r t n (S k) Hn Hto Hs) as [-> _].
    assert (Hn' : (0 <= nextStep n < 4)%Z) by (apply nextStep_range; lia).
    destruct (IH (mkRunning (value ease 2000 0 r (t + tickPeriod)) (elemPose (nextStep n) ShapeEl)
      (t + tickPeriod)) (t + tickPeriod)%Z _ Hn' eq_refl eq_refl) as (r' & Hb & Hto' & Hs' & Hf').
    exists r'. rewrite (Nat.iter_succ_r (S k) Z nextStep n), (Nat.iter_succ_r k Z nextStep n).
    split; [exact Hb | split; [exact Hto' | split; [| exact Hf']]].
    rewrite Hs'. unfold tickPeriod. lia.
Qed.

End Arrival.

(** ** Witnesses, with the [linear] timing function *)

Definition linear (p : Q) : Q := p.

Lemma linear_proper : Proper (Qeq ==> Qeq) linear.
Proof. intros p q H. exact H. Qed.

Lemma linear_lt_1 : forall p, 0 <= p -> p < 1 -> linear p < 1.
Proof. intros p _ H. exact H. Qed.

(** Trail 2 at the second tick, after its leg from pose 0 to pose 1. *)
Definition firstLeg : Running := mkRunning (elemPose 0 ShapeEl) (elemPose 1 ShapeEl) 2000.

Lemma settle_time_witness :
  Proper (Qeq ==> Qeq) linear /\ linear 1 == 1 /\
  (forall p, 0 <= p -> p < 1 -> linear p < 1) /\
  page_elem (TrailEl 2) /\ pose_eqb (rFrom firstLeg) (rTo firstLeg) = false /\
  ((pose_eqb (value linear (elemDuration 1 (TrailEl 2)) (elemDelay 1 (TrailEl 2)) firstLeg 4200)
      (rTo firstLeg) = true <->
    inject_Z (rStart firstLeg + 2000) + elemDelay 1 (TrailEl 2) <= inject_Z 4200) /\
   elemDelay 1 (TrailEl 2) <= 400).
Proof.
  assert (He : page_elem (TrailEl 2)) by (right; exists 2%Z; split; [reflexivity | lia]).
  assert (Hft : pose_eqb (rFrom firstLeg) (rTo firstLeg) = false) by reflexivity.
  assert (H1 : linear 1 == 1) by reflexivity.
  split; [exact linear_proper | split; [exact H1 | split; [exact linear_lt_1 |]]].
  split; [exact He | split; [exact Hft |]].
  exact (settle_time linear linear_proper H1 linear_lt_1 1 (TrailEl 2) firstLeg 4200 He Hft).
Defined.

Lemma arrival_on_beat_witness :
  Proper (Qeq ==> Qeq) linear /\ linear 1 == 1 /\
  (forall p, 0 <= p -> p < 1 -> linear p < 1) /\
  page_elem (TrailEl 2) /\ pose_eqb (rFrom firstLeg) (rTo firstLeg) = false /\
  (pose_eqb (value linear (elemDuration 1 (TrailEl 2)) (elemDelay 1 (TrailEl 2)) firstLeg
      (rStart firstLeg + tickPeriod)) (rTo firstLeg) = true
   <-> TrailEl 2 = ShapeEl \/ TrailEl 2 = TrailEl 0).
Proof.
  assert (He : page_elem (TrailEl 2)) by (right; exists 2%Z; split; [reflexivity | lia]).
  assert (Hft : pose_eqb (rFrom firstLeg) (rTo firstLeg) = false) by reflexivity.
  assert (H1 : linear 1 == 1) by reflexivity.
  split; [exact linear_proper | split; [exact H1 | split; [exact linear_lt_1 |]]].
  split; [exact He | split; [exact Hft |]].
  exact (arrival_on_beat linear linear_proper H1 linear_lt_1 1 (TrailEl 2) firstLeg He Hft).
Defined.

Lemma shape_on_beat_witness :
  Proper (Qeq ==> Qeq) linear /\ linear 1 == 1 /\
  (forall p, 0 <= p -> p < 1 -> linear p < 1) /\
  (0 <= 1 < 4)%Z /\ rTo firstLeg = elemPose 1 ShapeEl /\ rStart firstLeg = 2000%Z /\
  exists r', beat linear ShapeEl firstLeg 2000 1 (S 5) = Some r' /\
    rTo r' = elemPose (Nat.iter (S 5) nextStep 1%Z) ShapeEl /\
    rStart r' = (2000 + tickPeriod * Z.of_nat (S 5))%Z /\
    pose_eqb (rFrom r') (elemPose (Nat.iter 5 nextStep 1%Z) ShapeEl) = true.
Proof.
  assert (H1 : linear 1 == 1) by reflexivity.
  assert (Hn : (0 <= 1 < 4)%Z) by lia.
  assert (Hto : rTo firstLeg = elemPose 1 ShapeEl) by reflexivity.
  assert (Hs : rStart firstLeg = 2000%Z) by reflexivity.
  split; [exact linear_proper | split; [exact H1 | split; [exact linear_lt_1 |]]].
  split; [exact Hn | split; [exact Hto | split; [exact Hs |]]].
  exact (shape_on_beat linear linear_proper H1 linear_lt_1 5 firstLeg 2000 1 Hn Hto Hs).
Defined.
